(** * intake.readers.readers: reader registry, dependency check, load and fan-out

    A shallow embedding of [src/intake/readers/readers.py].  Class attributes
    become a record, descriptors become a record, Python dictionaries become
    [gmap string value], Python sets become [gset], and every call that leaves
    the module (name resolution, the backend load function, the concat
    function, the package-metadata lookup, duckdb) goes through an oracle and
    is recorded in a trace of events. *)

From Stdlib Require Import Ascii String.
From stdpp Require Import base option countable list strings gmap sets.

Local Open Scope string_scope.
Local Open Scope list_scope.

#[local] Set Warnings "-clear-no-such-hyp".

(** ** Python values that travel in keyword arguments *)

#[local] Unset Elimination Schemes.
Inductive value : Type :=
  | VNone
  | VBool (b : bool)
  | VInt (z : Z)
  | VStr (s : string)
  | VList (l : list value)
  | VDict (d : list (string * value)).
#[local] Set Elimination Schemes.

(** ** Exceptions, with the part of the class hierarchy the module relies on *)

Inductive exn : Type :=
  | ImportError
  | ModuleNotFoundError
  | PackageNotFoundError
  | NameError
  | KeyError
  | TypeError
  | IndexError
  | ValueError
  | AttributeError
  | OSError
  | OtherError (name : string).

#[global] Instance exn_eq_dec : EqDecision exn.
Proof. solve_decision. Defined.

(** [exn_isinstance e c]: an exception of class [e] is an instance of class
    [c].  [ModuleNotFoundError] derives from [ImportError], and
    [importlib.metadata.PackageNotFoundError] from [ModuleNotFoundError]; the
    other classes listed here are unrelated to one another. *)
Definition exn_isinstance (e c : exn) : bool :=
  match e with
  | PackageNotFoundError =>
      bool_decide (c = PackageNotFoundError) || bool_decide (c = ModuleNotFoundError)
      || bool_decide (c = ImportError)
  | ModuleNotFoundError =>
      bool_decide (c = ModuleNotFoundError) || bool_decide (c = ImportError)
  | _ => bool_decide (c = e)
  end.

(** ** Data kinds *)

(** Modelled from the spec: [intake.readers.datatypes] is not among the
    sources.  Every descriptor has exactly one kind, its class; the four this
    module names are constructors of their own, any other class is an
    [OtherKind]. *)

Inductive DataKind : Type :=
  | Parquet
  | CSV
  | JSONFile
  | SQLQuery
  | OtherKind (name : string).

#[global] Instance DataKind_eq_dec : EqDecision DataKind.
Proof. solve_decision. Defined.

#[global] Instance DataKind_countable : Countable DataKind.
Proof.
  refine (inj_countable'
    (λ k, match k with
          | Parquet => inl 0 | CSV => inl 1 | JSONFile => inl 2 | SQLQuery => inl 3
          | OtherKind n => inr n
          end)
    (λ c, match c with
          | inl 0 => Parquet | inl 1 => CSV | inl 2 => JSONFile | inl _ => SQLQuery
          | inr n => OtherKind n
          end) _).
  by intros [].
Defined.

(** ** Reader classes *)

(** The [func] attribute is either a string naming the load function or a
    method defined on the class ([DuckDB.func]). *)
Inductive func_ref : Type :=
  | FuncName (s : string)
  | FuncMethod.

#[global] Instance func_ref_eq_dec : EqDecision func_ref.
Proof. solve_decision. Defined.

#[global] Instance func_ref_countable : Countable func_ref.
Proof.
  refine (inj_countable'
    (λ f, match f with FuncName s => Some s | FuncMethod => None end)
    (λ o, match o with Some s => FuncName s | None => FuncMethod end) _).
  by intros [].
Defined.

Module Reader.
(** The class attributes of [BaseReader] and its subclasses; [name] is the
    class's identity. *)
Record t : Type := Build {
  name : string;
  imports : gset string;
  implements : gset DataKind;
  optional_imports : gset string;
  func : func_ref;
  concat_func : option string;
  output_instance : option string;
  url_arg : option string;
  storage_options : bool
}.

#[global] Instance eq_dec : EqDecision t.
Proof. solve_decision. Defined.

#[global] Instance countable : Countable t.
Proof.
  refine (inj_countable'
    (λ c, (name c, imports c, implements c, optional_imports c, func c,
           concat_func c, output_instance c, url_arg c, storage_options c))
    (λ p, let '(n, i, im, o, f, c, oi, u, s) := p in Build n i im o f c oi u s) _).
  by intros [].
Defined.
End Reader.

Module Data.
(** Modelled from the spec: the descriptor classes of
    [intake.readers.datatypes] are not among the sources.  A descriptor holds
    a primary URL, an ordered list of file URLs, a mapping of load keyword
    arguments, storage options and, for a query, a connection and the query
    text.  The fields are the attributes this module reads; [kind] is
    [type(data)], and [conn] is [None] when the descriptor has no such
    attribute. *)
Record t : Type := Build {
  kind : DataKind;
  url : string;
  filelist : list string;
  kwargs : gmap string value;
  storage_options : value;
  conn : option value;
  query : string
}.
End Data.

(** Truth value of an attribute that is [None] or a string. *)
Definition truthy (o : option string) : bool :=
  match o with
  | Some s => negb (bool_decide (s = ""))
  | None => false
  end.

(** *** The classes of the module, inherited attributes written out *)

Definition BaseReader : Reader.t :=
  {| Reader.name := "BaseReader";
     Reader.imports := ∅;
     Reader.implements := ∅;
     Reader.optional_imports := ∅;
     Reader.func := FuncName "builtins:NotImplementedError";
     Reader.concat_func := None;
     Reader.output_instance := None;
     Reader.url_arg := None;
     Reader.storage_options := false |}.

Definition Pandas : Reader.t :=
  {| Reader.name := "Pandas";
     Reader.imports := {["pandas"]};
     Reader.implements := ∅;
     Reader.optional_imports := ∅;
     Reader.func := FuncName "builtins:NotImplementedError";
     Reader.concat_func := Some "pandas:concat";
     Reader.output_instance := Some "pandas:DataFrame";
     Reader.url_arg := None;
     Reader.storage_options := false |}.

Definition PandasParquet : Reader.t :=
  {| Reader.name := "PandasParquet";
     Reader.imports := {["pandas"]};
     Reader.implements := {[Parquet]};
     Reader.optional_imports := {["fastparquet"; "pyarrow"]};
     Reader.func := FuncName "pandas:read_parquqet";
     Reader.concat_func := None;
     Reader.output_instance := Some "pandas:DataFrame";
     Reader.url_arg := Some "path";
     Reader.storage_options := false |}.

Definition DaskParquet : Reader.t :=
  {| Reader.name := "DaskParquet";
     Reader.imports := {["dask.dataframe"]};
     Reader.implements := {[Parquet]};
     Reader.optional_imports := {["fastparquet"; "pyarrow"]};
     Reader.func := FuncName "dask.dataframe:read_parquet";
     Reader.concat_func := None;
     Reader.output_instance := Some "dask.dataframe:DataFrame";
     Reader.url_arg := Some "path";
     Reader.storage_options := false |}.

Definition DuckDB : Reader.t :=
  {| Reader.name := "DuckDB";
     Reader.imports := {["duckdb"]};
     Reader.implements := {[Parquet; CSV; JSONFile; SQLQuery]};
     Reader.optional_imports := ∅;
     Reader.func := FuncMethod;
     Reader.concat_func := None;
     Reader.output_instance := Some "duckdb.DuckDBPyRelation";
     Reader.url_arg := None;
     Reader.storage_options := false |}.

Definition PandasDuck : Reader.t :=
  {| Reader.name := "PandasDuck";
     Reader.imports := {["duckdb"; "pandas"]};
     Reader.implements := {[Parquet; CSV; JSONFile; SQLQuery]};
     Reader.optional_imports := ∅;
     Reader.func := FuncName "builtins:NotImplementedError";
     Reader.concat_func := Some "pandas:concat";
     Reader.output_instance := Some "pandas:DataFrame";
     Reader.url_arg := None;
     Reader.storage_options := false |}.

Definition Awkward : Reader.t :=
  {| Reader.name := "Awkward";
     Reader.imports := {["awkward"]};
     Reader.implements := ∅;
     Reader.optional_imports := ∅;
     Reader.func := FuncName "builtins:NotImplementedError";
     Reader.concat_func := None;
     Reader.output_instance := Some "awkward:Array";
     Reader.url_arg := None;
     Reader.storage_options := false |}.

Definition AwkwardParquet : Reader.t :=
  {| Reader.name := "AwkwardParquet";
     Reader.imports := {["awkward"; "pyarrow"]};
     Reader.implements := {[Parquet]};
     Reader.optional_imports := ∅;
     Reader.func := FuncName "awkward:from_parquet";
     Reader.concat_func := None;
     Reader.output_instance := Some "awkward:Array";
     Reader.url_arg := Some "path";
     Reader.storage_options := false |}.

Definition PandasCSV : Reader.t :=
  {| Reader.name := "PandasCSV";
     Reader.imports := {["pandas"]};
     Reader.implements := {[CSV]};
     Reader.optional_imports := ∅;
     Reader.func := FuncName "pandas:read_csv";
     Reader.concat_func := Some "pandas:concat";
     Reader.output_instance := Some "pandas:DataFrame";
     Reader.url_arg := Some "filepath_or_buffer";
     Reader.storage_options := false |}.

(** Modelled from the spec: [intake.readers.utils.subclasses] is not among the
    sources; the spec has it enumerate every registered variant, indirect
    subclasses included.  For the classes of this module that is the list
    below.  The theorems take the enumeration as an argument. *)
Definition module_subclasses : list Reader.t :=
  [Pandas; PandasParquet; DaskParquet; DuckDB; PandasDuck; Awkward;
   AwkwardParquet; PandasCSV].

(** ** Outcomes of a call *)

Inductive outcome (A : Type) : Type :=
  | Ret (a : A)
  | Raise (e : exn)
  | OutOfFuel.
Arguments Ret {A} a.
Arguments Raise {A} e.
Arguments OutOfFuel {A}.

(** ** [BaseReader.check_imports] *)

(** The exception classes named in the [except] clause. *)
Definition check_imports_handled : list exn :=
  [ImportError; ModuleNotFoundError; NameError].

(** [e] matches the [except] clause. *)
Definition is_handled (e : exn) : bool :=
  existsb (exn_isinstance e) check_imports_handled.

(** The [for] loop of [check_imports]: the first lookup that raises ends it.
    [distribution p] is [None] when [importlib.metadata.distribution(p)]
    returns, and [Some e] when it raises [e]. *)
Fixpoint first_raise (distribution : string → option exn) (packages : list string)
    : option exn :=
  match packages with
  | [] => None
  | package :: rest =>
      match distribution package with
      | Some e => Some e
      | None => first_raise distribution rest
      end
  end.

(** [inr b]: the method returns [b]; [inl e]: it raises [e]. *)
Definition check_imports (distribution : string → option exn) (cls : Reader.t)
    : exn + bool :=
  match first_raise distribution (elements (Reader.imports cls)) with
  | None => inr true
  | Some e => if is_handled e then inr false else inl e
  end.

(** ** [recommend] *)

(** Truth value of the expression [cls.check_imports].  The attribute is read
    and not called: its value is the bound class method, and a method object
    is true. *)
Definition check_imports_attribute_truth (cls : Reader.t) : bool := true.

(** The loop body of [recommend], on the set built so far. *)
Definition recommend_step (data : Data.t) (check : bool)
    (out : gset Reader.t) (cls : Reader.t) : gset Reader.t :=
  if bool_decide (Data.kind data ∈ Reader.implements cls) then
    if check && negb (check_imports_attribute_truth cls) then out
    else {[cls]} ∪ out
  else out.

Definition recommend (subclasses : list Reader.t) (data : Data.t) (check : bool)
    : gset Reader.t :=
  foldl (recommend_step data check) ∅ subclasses.

(** ** The world outside the module *)

(** Calls that leave the module, in the order they are made.  [Obj] is the
    type of the objects the backends hand back (frames, relations,
    connections). *)
Inductive event (Obj : Type) : Type :=
  | EImportName (name : string)
  | ECall (name : string) (kw : gmap string value)
  | EConcat (name : string) (parts : list Obj)
  | EImportModule (name : string)
  | EConnect (kw : gmap string value)
  | EQuery (conn : Obj) (sql : string).
Arguments EImportName {Obj} name.
Arguments ECall {Obj} name kw.
Arguments EConcat {Obj} name parts.
Arguments EImportModule {Obj} name.
Arguments EConnect {Obj} kw.
Arguments EQuery {Obj} conn sql.

(** The oracles.  Each one sees the events so far, so that a backend may
    answer the same call differently at different times; each one answers,
    with an object or with an exception.
    - [import_name]: [intake.import_name], resolving a qualified name;
      [Some e] when it raises;
    - [call]: the callable of that name applied to keyword arguments;
    - [call_concat]: the callable of that name applied to the list of parts;
    - [import_module]: an [import] statement;
    - [connect], [run_query]: [duckdb.connect] and the connection's [query]. *)
Record World (Obj : Type) : Type := {
  import_name : list (event Obj) → string → option exn;
  call : list (event Obj) → string → gmap string value → exn + Obj;
  call_concat : list (event Obj) → string → list Obj → exn + Obj;
  import_module : list (event Obj) → string → option exn;
  connect : list (event Obj) → gmap string value → exn + Obj;
  run_query : list (event Obj) → Obj → string → exn + Obj
}.
Arguments import_name {Obj} w.
Arguments call {Obj} w.
Arguments call_concat {Obj} w.
Arguments import_module {Obj} w.
Arguments connect {Obj} w.
Arguments run_query {Obj} w.

(** ** Computations: a trace of events and an outcome *)

Definition M (Obj A : Type) : Type := list (event Obj) → outcome A * list (event Obj).

Definition ret {Obj A} (a : A) : M Obj A := λ t, (Ret a, t).
Definition raise {Obj A} (e : exn) : M Obj A := λ t, (Raise e, t).
Definition out_of_fuel {Obj A} : M Obj A := λ t, (OutOfFuel, t).

#[global] Instance M_ret {Obj} : MRet (M Obj) := λ A a, ret a.

#[global] Instance M_bind {Obj} : MBind (M Obj) := λ A B k m t,
  match m t with
  | (Ret a, t') => k a t'
  | (Raise e, t') => (Raise e, t')
  | (OutOfFuel, t') => (OutOfFuel, t')
  end.

(** An external call: the event is recorded, then the oracle answers from
    the events before it. *)
Definition of_answer {A} (r : exn + A) : outcome A :=
  match r with
  | inl e => Raise e
  | inr a => Ret a
  end.

Definition external {Obj A} (e : event Obj) (answer : list (event Obj) → exn + A)
    : M Obj A :=
  λ t, (of_answer (answer t), t ++ [e]).

Definition of_raise (o : option exn) : exn + () :=
  match o with
  | None => inr ()
  | Some e => inl e
  end.

(** ** String formatting as [DuckDB.func] uses it *)

(** [str.format] on a template whose replacement fields are plain names:
    literal text is copied, [{field}] is replaced by the field's value, and the
    value is not scanned again.  [fld] is [Some acc] while inside braces.
    Doubled braces, conversions and format specs do not occur in the templates
    of this module; a template with a stray brace or an unknown field has no
    result. *)
Fixpoint py_format (env : string → option string) (tpl : string) (fld : option string)
    : option string :=
  match tpl with
  | EmptyString =>
      match fld with
      | None => Some ""
      | Some _ => None
      end
  | String c rest =>
      match fld with
      | None =>
          if Ascii.eqb c "{" then py_format env rest (Some "")
          else if Ascii.eqb c "}" then None
          else String c <$> py_format env rest None
      | Some acc =>
          if Ascii.eqb c "}" then
            v ← env acc; String.append v <$> py_format env rest None
          else py_format env rest (Some (String.append acc (String c "")))
      end
  end.

(** The names a template of [DuckDB.func] can reach through [locals()]. *)
Definition format_field (data : Data.t) (field : string) : option string :=
  if String.eqb field "self.data.url" then Some (Data.url data)
  else if String.eqb field "self.data.query" then Some (Data.query data)
  else None.

(** The [queries] dictionary of [DuckDB.func]. *)
Definition queries : gmap DataKind string :=
  {[ Parquet := "SELECT * FROM read_parquet('{self.data.url}')";
     CSV := "SELECT * FROM read_csv_auto('{self.data.url}')";
     JSONFile := "SELECT * FROM read_json_auto('{self.data.url}')";
     SQLQuery := "{self.data.query}" ]}.

(** [conn = getattr(self.data, "conn", {})], a string turned into
    [{"database": conn}], then unpacked with [**]: a value that is not a
    mapping cannot be unpacked. *)
Definition connect_kwargs (conn : option value) : option (gmap string value) :=
  match conn with
  | None => Some ∅
  | Some (VStr s) => Some {["database" := VStr s]}
  | Some (VDict d) => Some (list_to_map d)
  | Some _ => None
  end.

(** A call of a method of the reader with a dictionary unpacked into its
    keywords ([self.method] applied to the unpacked [kw]): Python binds [self]
    itself, so a keyword named [self] is refused with [TypeError] before the
    body of the method runs. *)
Definition bound_call {Obj A} (kw : gmap string value) (body : M Obj A) : M Obj A :=
  if bool_decide (is_Some (kw !! "self")) then raise TypeError else body.

Section readers.
Context {Obj : Type} (W : World Obj).

Definition do_import_name (name : string) : M Obj () :=
  external (EImportName name) (λ t, of_raise (import_name W t name)).

Definition do_call (name : string) (kw : gmap string value) : M Obj Obj :=
  external (ECall name kw) (λ t, call W t name kw).

Definition do_concat (name : string) (parts : list Obj) : M Obj Obj :=
  external (EConcat name parts) (λ t, call_concat W t name parts).

Definition do_import_module (name : string) : M Obj () :=
  external (EImportModule name) (λ t, of_raise (import_module W t name)).

Definition do_connect (kw : gmap string value) : M Obj Obj :=
  external (EConnect kw) (λ t, connect W t kw).

Definition do_query (conn : Obj) (sql : string) : M Obj Obj :=
  external (EQuery conn sql) (λ t, run_query W t conn sql).

(** [DuckDB.func]: the keyword arguments are accepted and not used. *)
Definition DuckDB_func (data : Data.t) (kwargs : gmap string value) : M Obj Obj :=
  _ ← do_import_module "duckdb";
  match connect_kwargs (Data.conn data) with
  | None => raise TypeError
  | Some conn =>
      dd ← do_connect conn;
      match queries !! Data.kind data with
      | None => raise KeyError
      | Some template =>
          match py_format (format_field data) template None with
          | None => raise ValueError
          | Some sql => do_query dd sql
          end
      end
  end.

(** The call of [self._func] on the keywords: the [_func] property resolves a
    string through [import_name] and hands back anything else as it is; the
    only method among the [func] attributes is [DuckDB.func], which the
    property hands back bound to the reader. *)
Definition invoke_func (cls : Reader.t) (data : Data.t) (kw : gmap string value)
    : M Obj Obj :=
  match Reader.func cls with
  | FuncName name => _ ← do_import_name name; do_call name kw
  | FuncMethod => bound_call kw (DuckDB_func data kw)
  end.

(** The first condition of the fan-out in [read]:
    [self.url_arg and self.url_arg not in kwargs and self.concat_func],
    with the two names it goes on to use. *)
Definition fan_out_names (cls : Reader.t) (kwargs : gmap string value)
    : option (string * string) :=
  match Reader.url_arg cls, Reader.concat_func cls with
  | Some u, Some c =>
      if truthy (Some u) && negb (bool_decide (is_Some (kwargs !! u))) && truthy (Some c)
      then Some (u, c) else None
  | _, _ => None
  end.

(** The [for afile in filelist] loop of [read]: [kw] is the dictionary the
    loop keeps updating, [parts] the list it appends to, [sub_read] the
    recursive [self.read]. *)
Fixpoint read_parts (sub_read : gmap string value → M Obj Obj) (u : string)
    (files : list string) (kw : gmap string value) (parts : list Obj)
    : M Obj (list Obj) :=
  match files with
  | [] => mret parts
  | afile :: rest =>
      let kw := <[u := VStr afile]> kw in
      part ← sub_read kw;
      read_parts sub_read u rest kw (parts ++ [part])
  end.

(** [kw = self.data.kwargs.copy(); kw.update(kwargs)] *)
Definition merged_kwargs (data : Data.t) (kwargs : gmap string value)
    : gmap string value :=
  kwargs ∪ Data.kwargs data.

(** [if self.storage_options: kw["storage_options"] = self.data.storage_options] *)
Definition with_storage_options (cls : Reader.t) (data : Data.t)
    (kw : gmap string value) : gmap string value :=
  if Reader.storage_options cls
  then <["storage_options" := Data.storage_options data]> kw
  else kw.

(** [if self.url_arg: kw[self.url_arg] = self.data.url] *)
Definition with_url (cls : Reader.t) (data : Data.t) (kw : gmap string value)
    : gmap string value :=
  match Reader.url_arg cls with
  | Some u => if truthy (Some u) then <[u := VStr (Data.url data)]> kw else kw
  | None => kw
  end.

(** [BaseReader.read].  [fuel] bounds the depth of the calls of [read] to
    itself. *)
Fixpoint BaseReader_read (fuel : nat) (cls : Reader.t) (data : Data.t)
    (kwargs : gmap string value) : M Obj Obj :=
  match fuel with
  | 0 => out_of_fuel
  | S fuel' =>
      let kw := with_storage_options cls data (merged_kwargs data kwargs) in
      let single := invoke_func cls data (with_url cls data kw) in
      match fan_out_names cls kwargs with
      | Some (u, c) =>
          if bool_decide (1 < length (Data.filelist data)) then
            _ ← do_import_name c;
            parts ← read_parts
                      (λ kw', bound_call kw' (BaseReader_read fuel' cls data kw')) u
                      (Data.filelist data) kw [];
            do_concat c parts
          else single
      | None => single
      end
  end.

(** The call of [self.read] on the unpacked [kw] that the loop of [read]
    makes. *)
Definition sub_load (fuel : nat) (cls : Reader.t) (data : Data.t)
    (kw : gmap string value) : M Obj Obj :=
  bound_call kw (BaseReader_read fuel cls data kw).

(** [PandasCSV.glimpse]; a class without [url_arg] would put [None] among
    the keywords, which [**] refuses. *)
Definition PandasCSV_glimpse (fuel : nat) (cls : Reader.t) (data : Data.t)
    (kwargs : gmap string value) : M Obj Obj :=
  match Data.filelist data !! 0 with
  | None => raise IndexError
  | Some first =>
      match Reader.url_arg cls with
      | None => raise TypeError
      | Some u =>
          let kw : gmap string value := <[u := VStr first]> {["nrows" := VInt 10]} in
          BaseReader_read fuel cls data (kwargs ∪ kw)
      end
  end.

(** [AwkwardParquet.glimpse] *)
Definition AwkwardParquet_glimpse (fuel : nat) (cls : Reader.t) (data : Data.t)
    (kwargs : gmap string value) : M Obj Obj :=
  BaseReader_read fuel cls data (<["row_groups" := VList [VInt 0]]> kwargs).

End readers.

(** ** A world for worked examples *)

(** Every call succeeds and hands back a description of itself. *)
#[local] Unset Elimination Schemes.
Inductive term : Type :=
  | TCall (name : string) (kw : gmap string value)
  | TConcat (name : string) (parts : list term)
  | TConn (kw : gmap string value)
  | TRelation (conn : term) (sql : string).
#[local] Set Elimination Schemes.

Definition echo_world : World term :=
  {| import_name := λ _ _, None;
     call := λ _ name kw, inr (TCall name kw);
     call_concat := λ _ name parts, inr (TConcat name parts);
     import_module := λ _ _, None;
     connect := λ _ kw, inr (TConn kw);
     run_query := λ _ conn sql, inr (TRelation conn sql) |}.

(** A descriptor of two delimited-text files behind one glob. *)
Definition two_csv_files : Data.t :=
  {| Data.kind := CSV;
     Data.url := "data/*.csv";
     Data.filelist := ["data/a.csv"; "data/b.csv"];
     Data.kwargs := ∅;
     Data.storage_options := VNone;
     Data.conn := None;
     Data.query := "" |}.

(** A descriptor whose glob matches one file. *)
Definition one_csv_file : Data.t :=
  {| Data.kind := CSV;
     Data.url := "data/*.csv";
     Data.filelist := ["data/a.csv"];
     Data.kwargs := ∅;
     Data.storage_options := VNone;
     Data.conn := None;
     Data.query := "" |}.

(** A query descriptor. *)
Definition select_one : Data.t :=
  {| Data.kind := SQLQuery;
     Data.url := "";
     Data.filelist := [];
     Data.kwargs := ∅;
     Data.storage_options := VNone;
     Data.conn := None;
     Data.query := "SELECT 1" |}.


(** A descriptor with storage options. *)
Definition remote_file : Data.t :=
  {| Data.kind := Parquet;
     Data.url := "s3://bucket/a.parquet";
     Data.filelist := ["bucket/a.parquet"];
     Data.kwargs := ∅;
     Data.storage_options := VDict [("anon", VBool true)];
     Data.conn := None;
     Data.query := "" |}.

(** Two classes that set the [storage_options] flag, which no class of the
    module does: one with an ordinary [url_arg], one whose [url_arg] is the
    very key the flag fills in. *)
Definition RemoteReader : Reader.t :=
  {| Reader.name := "RemoteReader";
     Reader.imports := ∅;
     Reader.implements := {[Parquet]};
     Reader.optional_imports := ∅;
     Reader.func := FuncName "pkg:load";
     Reader.concat_func := None;
     Reader.output_instance := None;
     Reader.url_arg := Some "path";
     Reader.storage_options := true |}.

Definition ClashReader : Reader.t :=
  {| Reader.name := "ClashReader";
     Reader.imports := ∅;
     Reader.implements := {[Parquet]};
     Reader.optional_imports := ∅;
     Reader.func := FuncName "pkg:load";
     Reader.concat_func := None;
     Reader.output_instance := None;
     Reader.url_arg := Some "storage_options";
     Reader.storage_options := true |}.

(** Package lookups: nothing is installed; the lookup itself is broken. *)
Definition nothing_installed : string → option exn := λ _, Some PackageNotFoundError.
Definition lookup_broken : string → option exn := λ _, Some OSError.

(** ** Statements about runs *)

(** [emits P m]: whatever the events so far, [m] only appends events, and all
    of them satisfy [P]. *)
Definition emits {Obj A} (P : event Obj → Prop) (m : M Obj A) : Prop :=
  ∀ t, ∃ new, (m t).2 = t ++ new ∧ Forall P new.

(** [finishes m]: [m] never stops for lack of fuel. *)
Definition finishes {Obj A} (m : M Obj A) : Prop :=
  ∀ t, (m t).1 ≠ OutOfFuel.

(** The keywords the load function gets when [read] does not fan out. *)
Definition single_call_kwargs (cls : Reader.t) (data : Data.t)
    (kwargs : gmap string value) : gmap string value :=
  with_url cls data (with_storage_options cls data (merged_kwargs data kwargs)).

(** The events that are calls of a load function all carry keywords
    satisfying [Q]. *)
Definition calls_with {Obj} (Q : gmap string value → Prop) (e : event Obj) : Prop :=
  match e with
  | ECall _ kw => Q kw
  | _ => True
  end.

Definition is_concat {Obj} (e : event Obj) : bool :=
  match e with
  | EConcat _ _ => true
  | _ => false
  end.

(** The keys [read] fills in itself after merging. *)
Definition injected_key (cls : Reader.t) (k : string) : Prop :=
  (Reader.storage_options cls = true ∧ k = "storage_options")
  ∨ Reader.url_arg cls = Some k.

(** ** The readers that wrap another reader, and the default [glimpse] *)

Section wrappers.
Context {Obj : Type} (W : World Obj).

(** A method call on an object a backend handed back ([limit] of a relation,
    [df] of a relation).  The object answers from the events so far; the call
    adds no event of the kinds above. *)
Context (call_method : list (event Obj) → Obj → string → list value → exn + Obj).

Definition do_method (o : Obj) (name : string) (args : list value) : M Obj Obj :=
  λ t, (of_answer (call_method t o name args), t).

(** [BaseReader.glimpse] *)
Definition BaseReader_glimpse : M Obj Obj :=
  raise (OtherError "NotImplementedError").

(** [DuckDB.glimpse]: [self.read().limit(10)]; its own keywords are not
    passed on. *)
Definition DuckDB_glimpse (fuel : nat) (data : Data.t) (kwargs : gmap string value)
    : M Obj Obj :=
  relation ← BaseReader_read W fuel DuckDB data ∅;
  do_method relation "limit" [VInt 10].

(** [PandasDuck.read]: [self.d.read().df()], where [self.d] is the [DuckDB]
    reader of the same descriptor made by [__init__]. *)
Definition PandasDuck_read (fuel : nat) (data : Data.t) (kwargs : gmap string value)
    : M Obj Obj :=
  relation ← BaseReader_read W fuel DuckDB data ∅;
  do_method relation "df" [].

(** [PandasDuck.glimpse]: [self.d.glimpse().df()] *)
Definition PandasDuck_glimpse (fuel : nat) (data : Data.t) (kwargs : gmap string value)
    : M Obj Obj :=
  relation ← DuckDB_glimpse fuel data ∅;
  do_method relation "df" [].

End wrappers.

(** ** Kinds of events *)

Definition is_call {Obj} (e : event Obj) : bool :=
  match e with
  | ECall _ _ => true
  | _ => false
  end.

Definition is_query {Obj} (e : event Obj) : bool :=
  match e with
  | EQuery _ _ => true
  | _ => false
  end.

(** The events of [DuckDB.func]. *)
Definition is_duckdb_event {Obj} (e : event Obj) : bool :=
  match e with
  | EImportModule _ | EConnect _ | EQuery _ _ => true
  | _ => false
  end.

(** The query [DuckDB.func] builds for a descriptor of files. *)
Definition file_query (reader url : string) : string :=
  String.append "SELECT * FROM "
    (String.append reader (String.append "('" (String.append url "')"))).

(** ** More worked inputs *)

(** A descriptor of three columnar files in a directory. *)
Definition three_parquet_files : Data.t :=
  {| Data.kind := Parquet;
     Data.url := "lake/";
     Data.filelist := ["lake/0.parquet"; "lake/1.parquet"; "lake/2.parquet"];
     Data.kwargs := ∅;
     Data.storage_options := VNone;
     Data.conn := None;
     Data.query := "" |}.

(** A query descriptor whose connection is a database file. *)
Definition query_on_file_db : Data.t :=
  {| Data.kind := SQLQuery;
     Data.url := "";
     Data.filelist := [];
     Data.kwargs := ∅;
     Data.storage_options := VNone;
     Data.conn := Some (VStr "my.db");
     Data.query := "SELECT 1" |}.

(** A descriptor of a kind [DuckDB.func] has no template for. *)
Definition unknown_kind_data : Data.t :=
  {| Data.kind := OtherKind "Text";
     Data.url := "notes.txt";
     Data.filelist := ["notes.txt"];
     Data.kwargs := ∅;
     Data.storage_options := VNone;
     Data.conn := None;
     Data.query := "" |}.

(** A descriptor with no file at all. *)
Definition no_csv_file : Data.t :=
  {| Data.kind := CSV;
     Data.url := "data/*.csv";
     Data.filelist := [];
     Data.kwargs := ∅;
     Data.storage_options := VNone;
     Data.conn := None;
     Data.query := "" |}.

(** A world in which no name resolves. *)
Definition unresolvable_world : World term :=
  {| import_name := λ _ _, Some ImportError;
     call := λ _ name kw, inr (TCall name kw);
     call_concat := λ _ name parts, inr (TConcat name parts);
     import_module := λ _ _, None;
     connect := λ _ kw, inr (TConn kw);
     run_query := λ _ conn sql, inr (TRelation conn sql) |}.

(** A world in which the load function fails on its second call. *)
Definition second_call_fails : World term :=
  {| import_name := λ _ _, None;
     call := λ t name kw,
       if bool_decide (length (filter (λ e, is_call e = true) t) = 0)
       then inr (TCall name kw) else inl OSError;
     call_concat := λ _ name parts, inr (TConcat name parts);
     import_module := λ _ _, None;
     connect := λ _ kw, inr (TConn kw);
     run_query := λ _ conn sql, inr (TRelation conn sql) |}.

(** A world in which duckdb is not installed. *)
Definition no_duckdb : World term :=
  {| import_name := λ _ _, None;
     call := λ _ name kw, inr (TCall name kw);
     call_concat := λ _ name parts, inr (TConcat name parts);
     import_module := λ _ _, Some ModuleNotFoundError;
     connect := λ _ kw, inr (TConn kw);
     run_query := λ _ conn sql, inr (TRelation conn sql) |}.

(** Methods that hand back the object they are called on. *)
Definition echo_method : list (event term) → term → string → list value → exn + term :=
  λ _ o _ _, inr o.

(** ** Counting calls of the load function *)

Definition count_calls {Obj} (new : list (event Obj)) : nat :=
  length (filter (λ e, is_call e = true) new).

(** [bounded_calls b m]: whatever the events so far, [m] only appends events,
    at most [b] of them calls of a load function. *)
Definition bounded_calls {Obj A} (b : nat) (m : M Obj A) : Prop :=
  ∀ t, ∃ new, (m t).2 = t ++ new ∧ (count_calls new ≤ b)%nat.

(** ** Method resolution *)

(** Of the classes of the module only [PandasDuck] defines a [read] of its
    own; every other class inherits [BaseReader.read]. *)
Definition overrides_read (cls : Reader.t) : bool :=
  bool_decide (Reader.name cls = "PandasDuck").

(** The [read] a reader of class [cls] runs. *)
Definition Reader_read {Obj} (W : World Obj)
    (call_method : list (event Obj) → Obj → string → list value → exn + Obj)
    (fuel : nat) (cls : Reader.t) (data : Data.t) (kwargs : gmap string value)
    : M Obj Obj :=
  if overrides_read cls then PandasDuck_read W call_method fuel data kwargs
  else BaseReader_read W fuel cls data kwargs.


(** ** Worked inputs with keys that collide *)

(** A query descriptor whose stored keywords hold the key [self]. *)
Definition query_with_self_keyword : Data.t :=
  {| Data.kind := SQLQuery;
     Data.url := "";
     Data.filelist := [];
     Data.kwargs := {["self" := VInt 1]};
     Data.storage_options := VNone;
     Data.conn := None;
     Data.query := "SELECT 1" |}.

(** A query descriptor whose [conn] is neither a string nor a mapping. *)
Definition query_with_number_conn : Data.t :=
  {| Data.kind := SQLQuery;
     Data.url := "";
     Data.filelist := [];
     Data.kwargs := ∅;
     Data.storage_options := VNone;
     Data.conn := Some (VInt 3);
     Data.query := "SELECT 1" |}.




(** * Properties *)

(** ** [recommend] *)

Lemma recommend_step_elem data check out cls V :
  V ∈ recommend_step data check out cls ↔
  V ∈ out ∨ (V = cls ∧ Data.kind data ∈ Reader.implements cls).
Proof.
  unfold recommend_step, check_imports_attribute_truth.
  rewrite andb_false_r.
  case_bool_decide; set_solver.
Qed.

Lemma recommend_fold_elem data check subclasses out V :
  V ∈ foldl (recommend_step data check) out subclasses ↔
  V ∈ out ∨ (V ∈ subclasses ∧ Data.kind data ∈ Reader.implements V).
Proof.
  revert out. induction subclasses as [|cls rest IH]; intros out; simpl.
  - set_solver.
  - rewrite IH, recommend_step_elem, elem_of_cons. naive_solver.
Qed.

Lemma recommend_elem subclasses data check V :
  V ∈ recommend subclasses data check ↔
  V ∈ subclasses ∧ Data.kind data ∈ Reader.implements V.
Proof. unfold recommend. rewrite recommend_fold_elem. set_solver. Qed.

(** C3. With the flag off, a registered variant is recommended exactly when
    the descriptor's kind is in its [implements] set; only registered
    variants are recommended; and when no registered variant implements the
    kind (in particular for an empty registry) the result is the empty set.
    [recommend] is a total function: it has no way to raise. *)
Theorem recommend_unchecked_iff_implements (subclasses : list Reader.t) (data : Data.t) :
  (∀ V, V ∈ subclasses →
     (V ∈ recommend subclasses data false ↔ Data.kind data ∈ Reader.implements V))
  ∧ (∀ V, V ∈ recommend subclasses data false → V ∈ subclasses)
  ∧ ((∀ V, V ∈ subclasses → Data.kind data ∉ Reader.implements V) →
     recommend subclasses data false = ∅)
  ∧ recommend [] data false = ∅.
Proof.
  split; [|split; [|split]].
  - intros V HV. rewrite recommend_elem. tauto.
  - intros V. rewrite recommend_elem. tauto.
  - intros Hnone. apply set_eq. intros V. rewrite recommend_elem. set_solver.
  - reflexivity.
Qed.

Lemma recommend_unchecked_PandasCSV :
  (PandasCSV ∈ recommend module_subclasses one_csv_file false ↔
   Data.kind one_csv_file ∈ Reader.implements PandasCSV)
  ∧ (PandasParquet ∈ recommend module_subclasses one_csv_file false ↔
     Data.kind one_csv_file ∈ Reader.implements PandasParquet).
Proof.
  split.
  - apply (proj1 (recommend_unchecked_iff_implements module_subclasses one_csv_file)).
    unfold module_subclasses. set_solver.
  - apply (proj1 (recommend_unchecked_iff_implements module_subclasses one_csv_file)).
    unfold module_subclasses. set_solver.
Defined.

(** The flag changes nothing: the test [not cls.check_imports] is false for
    every class, so no class is skipped. *)
Lemma recommend_flag_ignored subclasses data :
  recommend subclasses data true = recommend subclasses data false.
Proof. apply set_eq. intros V. by rewrite !recommend_elem. Qed.

(** C1, on the code: with nothing installed, [PandasCSV.check_imports()]
    returns false, and [recommend] with the flag on still returns
    [PandasCSV] for a delimited-text descriptor. *)
Theorem recommend_checked_keeps_unavailable_reader :
  check_imports nothing_installed PandasCSV = inr false
  ∧ PandasCSV ∈ recommend module_subclasses one_csv_file true.
Proof.
  split.
  - vm_compute. reflexivity.
  - rewrite recommend_elem. split.
    + unfold module_subclasses. set_solver.
    + simpl. set_solver.
Qed.

(** ** [check_imports] *)

Lemma first_raise_None distribution packages :
  first_raise distribution packages = None ↔
  ∀ p, p ∈ packages → distribution p = None.
Proof.
  induction packages as [|q rest IH]; simpl.
  - split; [intros _ p Hp; inversion Hp | done].
  - destruct (distribution q) eqn:Hq.
    + split; [done | intros H; specialize (H q); rewrite Hq in H; apply H; left].
    + rewrite IH. split.
      * intros H p [->|Hp]%elem_of_cons; auto.
      * intros H p Hp. apply H. by right.
Qed.

Lemma first_raise_Some distribution packages e :
  first_raise distribution packages = Some e →
  ∃ p, p ∈ packages ∧ distribution p = Some e.
Proof.
  induction packages as [|q rest IH]; simpl; [done|].
  destruct (distribution q) eqn:Hq.
  - intros [= ->]. exists q. split; [left | done].
  - intros [p [Hp He]]%IH. exists p. split; [by right | done].
Qed.

(** The answer of the metadata lookup for a missing package is handled. *)
Lemma PackageNotFoundError_handled : is_handled PackageNotFoundError = true.
Proof. reflexivity. Qed.

(** An exception the [except] clause does not name leaves [check_imports]. *)
Lemma check_imports_unhandled distribution cls e :
  first_raise distribution (elements (Reader.imports cls)) = Some e →
  is_handled e = false →
  check_imports distribution cls = inl e.
Proof. unfold check_imports. by intros -> ->. Qed.

(** C7, as the code has it.  When every lookup failure among the required
    packages is an [ImportError], a [ModuleNotFoundError] (the answer for a
    package that is not installed, [PackageNotFoundError], is one) or a
    [NameError], [check_imports] does not raise; it returns false exactly
    when some required package's lookup fails, and so whenever a required
    package is not installed. *)
Theorem check_imports_handled_failures
    (distribution : string → option exn) (cls : Reader.t) :
  (∀ p e, p ∈ Reader.imports cls → distribution p = Some e → is_handled e = true) →
  (∃ b, check_imports distribution cls = inr b)
  ∧ (check_imports distribution cls = inr false ↔
     ∃ p, p ∈ Reader.imports cls ∧ distribution p ≠ None)
  ∧ (∀ p, p ∈ Reader.imports cls → distribution p = Some PackageNotFoundError →
     check_imports distribution cls = inr false).
Proof.
  intros Hhandled.
  assert (Hfalse : check_imports distribution cls = inr false ↔
                   ∃ p, p ∈ Reader.imports cls ∧ distribution p ≠ None).
  { unfold check_imports.
    destruct (first_raise distribution (elements (Reader.imports cls))) as [e|] eqn:Hfirst.
    - destruct (first_raise_Some _ _ _ Hfirst) as (p & Hp%elem_of_elements & He).
      rewrite (Hhandled p e Hp He). split; [|done].
      intros _. exists p. split; [done | by rewrite He].
    - split; [done|]. intros (p & Hp & Hne). exfalso. apply Hne.
      rewrite first_raise_None in Hfirst. apply Hfirst. by apply elem_of_elements. }
  split; [|split; [exact Hfalse|]].
  - unfold check_imports.
    destruct (first_raise distribution (elements (Reader.imports cls))) as [e|] eqn:Hfirst.
    + destruct (first_raise_Some _ _ _ Hfirst) as (p & Hp%elem_of_elements & He).
      rewrite (Hhandled p e Hp He). by eexists.
    + by eexists.
  - intros p Hp He. apply Hfalse. exists p. split; [done | by rewrite He].
Qed.

Lemma check_imports_handled_failures_witness :
  (∃ b, check_imports nothing_installed PandasCSV = inr b)
  ∧ (check_imports nothing_installed PandasCSV = inr false ↔
     ∃ p, p ∈ Reader.imports PandasCSV ∧ nothing_installed p ≠ None)
  ∧ (∀ p, p ∈ Reader.imports PandasCSV →
     nothing_installed p = Some PackageNotFoundError →
     check_imports nothing_installed PandasCSV = inr false).
Proof.
  apply (check_imports_handled_failures nothing_installed PandasCSV).
  intros p e _ He. unfold nothing_installed in He.
  injection He as <-. reflexivity.
Defined.

(** C7, as stated, fails: a lookup that raises something else, here an
    [OSError], for the one required package of [Pandas] makes
    [check_imports] raise it. *)
Lemma check_imports_propagates_other_errors :
  "pandas" ∈ Reader.imports Pandas
  ∧ lookup_broken "pandas" = Some OSError
  ∧ check_imports lookup_broken Pandas = inl OSError.
Proof.
  split; [simpl; set_solver | split; [reflexivity|]].
  vm_compute. reflexivity.
Qed.

(** ** Reasoning about traces *)

Create HintDb trace.

Section monad_facts.
Context {Obj : Type}.
Implicit Types P : event Obj → Prop.

Lemma emits_ret {A} P (a : A) : emits P (mret a : M Obj A).
Proof. intros t. exists []. split; [by rewrite app_nil_r | constructor]. Qed.

Lemma emits_raise {A} P e : emits P (raise e : M Obj A).
Proof. intros t. exists []. split; [by rewrite app_nil_r | constructor]. Qed.

Lemma emits_out_of_fuel {A} P : emits P (out_of_fuel : M Obj A).
Proof. intros t. exists []. split; [by rewrite app_nil_r | constructor]. Qed.

Lemma emits_external {A} P e (answer : list (event Obj) → exn + A) :
  P e → emits P (external e answer).
Proof. intros He t. exists [e]. split; [done | by repeat constructor]. Qed.

Lemma emits_bind {A B} P (m : M Obj A) (k : A → M Obj B) :
  emits P m → (∀ a, emits P (k a)) → emits P (m ≫= k).
Proof.
  intros Hm Hk t. unfold mbind, M_bind.
  destruct (Hm t) as (new & Heq & Hnew).
  destruct (m t) as [[a| |] t']; simpl in Heq; subst t'.
  - destruct (Hk a (t ++ new)) as (new' & Heq' & Hnew').
    exists (new ++ new'). split; [by rewrite Heq', app_assoc | by apply Forall_app].
  - by exists new.
  - by exists new.
Qed.

Lemma emits_weaken {A} P Q (m : M Obj A) :
  (∀ e, P e → Q e) → emits P m → emits Q m.
Proof.
  intros HPQ Hm t. destruct (Hm t) as (new & Heq & Hnew).
  exists new. split; [done | by eapply Forall_impl].
Qed.

Lemma finishes_ret {A} (a : A) : finishes (mret a : M Obj A).
Proof. by intros t. Qed.

Lemma finishes_raise {A} e : finishes (raise e : M Obj A).
Proof. by intros t. Qed.

Lemma finishes_external {A} e (answer : list (event Obj) → exn + A) :
  finishes (external e answer).
Proof. intros t. unfold external. simpl. by destruct (answer t). Qed.

Lemma finishes_bind {A B} (m : M Obj A) (k : A → M Obj B) :
  finishes m → (∀ a, finishes (k a)) → finishes (m ≫= k).
Proof.
  intros Hm Hk t. unfold mbind, M_bind.
  specialize (Hm t). destruct (m t) as [[a| |] t']; simpl in *; [apply Hk | done | done].
Qed.

(** Two computations that agree on every trace may replace one another
    under a bind. *)
Lemma bind_ext {A B} (m : M Obj A) (k1 k2 : A → M Obj B) t :
  (∀ a t', k1 a t' = k2 a t') → (m ≫= k1) t = (m ≫= k2) t.
Proof.
  intros Hk. unfold mbind, M_bind. destruct (m t) as [[a| |] t']; [apply Hk | done | done].
Qed.

Lemma bound_call_no_self {A} (kw : gmap string value) (m : M Obj A) :
  kw !! "self" = None → bound_call kw m = m.
Proof.
  intros Hnone. unfold bound_call. rewrite bool_decide_eq_false_2; [done|].
  rewrite Hnone. by intros [? ?].
Qed.

Lemma bound_call_self {A} (kw : gmap string value) (m : M Obj A) :
  is_Some (kw !! "self") → bound_call kw m = raise TypeError.
Proof. intros Hsome. unfold bound_call. by rewrite bool_decide_eq_true_2. Qed.

Lemma emits_bound_call {A} P (kw : gmap string value) (m : M Obj A) :
  emits P m → emits P (bound_call kw m).
Proof. intros Hm. unfold bound_call. case_bool_decide; [apply emits_raise | done]. Qed.

Lemma finishes_bound_call {A} (kw : gmap string value) (m : M Obj A) :
  finishes m → finishes (bound_call kw m).
Proof. intros Hm. unfold bound_call. case_bool_decide; [apply finishes_raise | done]. Qed.
End monad_facts.

#[export] Hint Resolve emits_ret emits_raise emits_out_of_fuel emits_external
  finishes_ret finishes_raise finishes_external : trace.
#[export] Hint Unfold do_import_name do_call do_concat do_import_module
  do_connect do_query : trace.

(** One event, or none: unfold the primitive and apply the matching lemma. *)
Ltac trace_step := autounfold with trace; auto with trace.

(** The three ways through [read]: fan-out, one file only, guard false. *)
Ltac read_paths cls data kwargs Hf Hlen :=
  destruct (fan_out_names cls kwargs) as [[? ?]|] eqn:Hf;
    [destruct (decide (1 < length (Data.filelist data))) as [Hlen|Hlen]|].

(** ** [BaseReader.read]: the two paths *)

Section read_facts.
Context {Obj : Type} (W : World Obj).
Implicit Types (cls : Reader.t) (data : Data.t) (kw kwargs : gmap string value).
Implicit Types (P : event Obj → Prop).

Lemma fan_out_names_Some cls kwargs u c :
  fan_out_names cls kwargs = Some (u, c) →
  Reader.url_arg cls = Some u ∧ Reader.concat_func cls = Some c
  ∧ u ≠ "" ∧ c ≠ "" ∧ kwargs !! u = None.
Proof.
  unfold fan_out_names, truthy.
  destruct (Reader.url_arg cls) as [u'|]; [|done].
  destruct (Reader.concat_func cls) as [c'|]; [|done].
  repeat case_bool_decide; simpl; try done.
  intros [= -> ->]. repeat split; try done.
  destruct (kwargs !! u) eqn:Hk; [|done]. exfalso. eauto.
Qed.

(** The guard of the fan-out is false once the url keyword is among the
    keywords. *)
Lemma fan_out_names_given cls kwargs u :
  Reader.url_arg cls = Some u → is_Some (kwargs !! u) →
  fan_out_names cls kwargs = None.
Proof.
  intros Hu Hsome. unfold fan_out_names. rewrite Hu.
  destruct (Reader.concat_func cls); [|done].
  rewrite (bool_decide_eq_true_2 _ Hsome). by rewrite andb_false_r.
Qed.

Lemma fan_out_names_insert cls kw u v :
  Reader.url_arg cls = Some u → fan_out_names cls (<[u := v]> kw) = None.
Proof.
  intros Hu. apply fan_out_names_given with u; [done|].
  rewrite lookup_insert_eq. by eexists.
Qed.

Lemma read_single n cls data kwargs :
  fan_out_names cls kwargs = None ∨ ¬ 1 < length (Data.filelist data) →
  BaseReader_read W (S n) cls data kwargs
  = invoke_func W cls data (single_call_kwargs cls data kwargs).
Proof.
  intros H. simpl. destruct (fan_out_names cls kwargs) as [[u c]|]; [|done].
  destruct H as [|H]; [done|]. by rewrite bool_decide_eq_false_2.
Qed.

Lemma read_fan_out n cls data kwargs u c :
  fan_out_names cls kwargs = Some (u, c) →
  1 < length (Data.filelist data) →
  BaseReader_read W (S n) cls data kwargs
  = (_ ← do_import_name W c;
     parts ← read_parts (sub_load W n cls data) u (Data.filelist data)
               (with_storage_options cls data (merged_kwargs data kwargs)) [];
     do_concat W c parts).
Proof. intros Hf Hlen. simpl. rewrite Hf. by rewrite bool_decide_eq_true_2. Qed.

Lemma DuckDB_func_emits P data kwargs :
  (∀ name, P (EImportModule name)) → (∀ ckw, P (EConnect ckw)) →
  (∀ conn sql, P (EQuery conn sql)) →
  emits P (DuckDB_func W data kwargs).
Proof.
  intros Hi Hc Hq. unfold DuckDB_func.
  apply emits_bind; [trace_step|]. intros _.
  destruct (connect_kwargs _); [|trace_step].
  apply emits_bind; [trace_step|]. intros dd.
  destruct (queries !! _); [|trace_step].
  destruct (py_format _ _ _); trace_step.
Qed.

Lemma DuckDB_func_finishes data kwargs : finishes (DuckDB_func W data kwargs).
Proof.
  unfold DuckDB_func.
  apply finishes_bind; [trace_step|]. intros _.
  destruct (connect_kwargs _); [|trace_step].
  apply finishes_bind; [trace_step|]. intros dd.
  destruct (queries !! _); [|trace_step].
  destruct (py_format _ _ _); trace_step.
Qed.

Lemma invoke_func_emits P cls data kw :
  (∀ e, is_concat e = false → (∀ name kw', e = ECall name kw' → kw' = kw) → P e) →
  emits P (invoke_func W cls data kw).
Proof.
  intros HP. unfold invoke_func. destruct (Reader.func cls) as [name|].
  - apply emits_bind; [apply emits_external; by apply HP|]. intros _.
    apply emits_external. apply HP; [done|]. by intros ?? [= _ ->].
  - apply emits_bound_call. apply DuckDB_func_emits; intros; by apply HP.
Qed.

Lemma invoke_func_finishes cls data kw : finishes (invoke_func W cls data kw).
Proof.
  unfold invoke_func. destruct (Reader.func cls).
  - apply finishes_bind; [apply finishes_external|]. intros _. apply finishes_external.
  - apply finishes_bound_call, DuckDB_func_finishes.
Qed.

(** The loop only ever hands [sub_read] keywords that hold the url key and
    otherwise agree with the keywords the loop started from. *)
Lemma read_parts_emits P (sub_read : gmap string value → M Obj Obj) u files kw0 kw parts :
  (∀ afile kw', (∀ k, k ≠ u → kw' !! k = kw0 !! k) →
     emits P (sub_read (<[u := VStr afile]> kw'))) →
  (∀ k, k ≠ u → kw !! k = kw0 !! k) →
  emits P (read_parts sub_read u files kw parts).
Proof.
  intros Hsub. revert kw parts.
  induction files as [|afile rest IH]; intros kw parts Hkw; simpl.
  - apply emits_ret.
  - apply emits_bind; [by apply Hsub|]. intros part.
    apply IH. intros k Hk. rewrite lookup_insert_ne by done. by apply Hkw.
Qed.

Lemma read_parts_finishes (sub_read : gmap string value → M Obj Obj) u files kw parts :
  (∀ afile kw', finishes (sub_read (<[u := VStr afile]> kw'))) →
  finishes (read_parts sub_read u files kw parts).
Proof.
  intros Hsub. revert kw parts.
  induction files as [|afile rest IH]; intros kw parts; simpl.
  - apply finishes_ret.
  - apply finishes_bind; [apply Hsub|]. intros part. apply IH.
Qed.

Lemma read_parts_ext (s1 s2 : gmap string value → M Obj Obj) u files kw parts t :
  (∀ afile kw' t', s1 (<[u := VStr afile]> kw') t' = s2 (<[u := VStr afile]> kw') t') →
  read_parts s1 u files kw parts t = read_parts s2 u files kw parts t.
Proof.
  intros Hs. revert kw parts t.
  induction files as [|afile rest IH]; intros kw parts t; simpl; [done|].
  unfold mbind, M_bind. rewrite Hs.
  destruct (s2 _ t) as [[part| |] t']; [apply IH | done | done].
Qed.

(** A sub-load stops for lack of fuel or is a single call. *)
Lemma read_sub_load n cls data kw u v :
  Reader.url_arg cls = Some u →
  BaseReader_read W (S n) cls data (<[u := v]> kw)
  = invoke_func W cls data (single_call_kwargs cls data (<[u := v]> kw)).
Proof. intros Hu. apply read_single. left. by apply fan_out_names_insert. Qed.

(** What every call of a load function made by [read] carries, from an
    invariant [I] on the keywords [read] is entered with. *)
Lemma read_emits_calls (Q I : gmap string value → Prop) cls data :
  (∀ kwargs, I kwargs → Q (single_call_kwargs cls data kwargs)) →
  (∀ kwargs u afile kw',
     I kwargs → Reader.url_arg cls = Some u →
     (∀ k, k ≠ u →
        kw' !! k = with_storage_options cls data (merged_kwargs data kwargs) !! k) →
     I (<[u := VStr afile]> kw')) →
  ∀ fuel kwargs, I kwargs →
    emits (calls_with Q) (BaseReader_read W fuel cls data kwargs).
Proof.
  intros HQ HI fuel. induction fuel as [|n IH]; intros kwargs Hk.
  - apply emits_out_of_fuel.
  - read_paths cls data kwargs Hf Hlen.
    + rewrite (read_fan_out _ _ _ _ _ _ Hf Hlen).
      apply fan_out_names_Some in Hf as (Hu & _).
      apply emits_bind; [by apply emits_external|]. intros _.
      apply emits_bind; [|intros parts; by apply emits_external].
      eapply read_parts_emits; [|done].
      intros afile kw' Hkw'. apply emits_bound_call, IH. by eapply HI.
    + rewrite read_single by auto.
      apply invoke_func_emits. intros [] ? Hcall; simpl; try done.
      rewrite (Hcall _ _ eq_refl). by apply HQ.
    + rewrite read_single by auto.
      apply invoke_func_emits. intros [] ? Hcall; simpl; try done.
      rewrite (Hcall _ _ eq_refl). by apply HQ.
Qed.

Lemma read_finishes_at_two cls data kwargs :
  finishes (BaseReader_read W 2 cls data kwargs).
Proof.
  read_paths cls data kwargs Hf Hlen.
  - rewrite (read_fan_out _ _ _ _ _ _ Hf Hlen).
    apply fan_out_names_Some in Hf as (Hu & _).
    apply finishes_bind; [apply finishes_external|]. intros _.
    apply finishes_bind; [|intros parts; apply finishes_external].
    apply read_parts_finishes. intros afile kw'. apply finishes_bound_call.
    rewrite read_sub_load by done. apply invoke_func_finishes.
  - rewrite read_single by auto. apply invoke_func_finishes.
  - rewrite read_single by auto. apply invoke_func_finishes.
Qed.

Lemma read_fuel_irrelevant n cls data kwargs t :
  BaseReader_read W (2 + n) cls data kwargs t = BaseReader_read W 2 cls data kwargs t.
Proof.
  change (2 + n) with (S (S n)).
  read_paths cls data kwargs Hf Hlen.
  - rewrite !(read_fan_out _ _ _ _ _ _ Hf Hlen).
    apply fan_out_names_Some in Hf as (Hu & _).
    apply bind_ext. intros _ t'. unfold mbind, M_bind.
    rewrite (read_parts_ext (sub_load W (S n) cls data) (sub_load W 1 cls data));
      [done|].
    intros afile kw' t''. unfold sub_load. by rewrite !read_sub_load.
  - by rewrite !read_single by auto.
  - by rewrite !read_single by auto.
Qed.
End read_facts.

(** ** Keyword arguments *)

Lemma merged_kwargs_lookup data overrides k :
  merged_kwargs data overrides !! k
  = match overrides !! k with
    | Some v => Some v
    | None => Data.kwargs data !! k
    end.
Proof.
  unfold merged_kwargs. rewrite lookup_union.
  destruct (overrides !! k), (Data.kwargs data !! k); done.
Qed.

Lemma single_call_kwargs_other cls data kwargs k :
  ¬ injected_key cls k →
  single_call_kwargs cls data kwargs !! k = merged_kwargs data kwargs !! k.
Proof.
  intros Hk. unfold single_call_kwargs, with_url, with_storage_options.
  assert (Hurl : Reader.url_arg cls ≠ Some k) by (intros H; apply Hk; by right).
  assert (Hso : Reader.storage_options cls = true → "storage_options" ≠ k).
  { intros H <-. apply Hk. by left. }
  destruct (Reader.url_arg cls) as [u|]; [destruct (truthy (Some u))|];
    rewrite ?lookup_insert_ne by congruence;
    destruct (Reader.storage_options cls); rewrite ?lookup_insert_ne by auto; done.
Qed.

Lemma single_call_kwargs_url cls data kwargs u :
  Reader.url_arg cls = Some u → u ≠ "" →
  single_call_kwargs cls data kwargs !! u = Some (VStr (Data.url data)).
Proof.
  intros Hu Hne. unfold single_call_kwargs, with_url. rewrite Hu. simpl.
  rewrite bool_decide_eq_false_2 by done. simpl. apply lookup_insert_eq.
Qed.

Lemma single_call_kwargs_storage cls data kwargs :
  Reader.storage_options cls = true →
  Reader.url_arg cls ≠ Some "storage_options" →
  single_call_kwargs cls data kwargs !! "storage_options"
  = Some (Data.storage_options data).
Proof.
  intros Hso Hu. unfold single_call_kwargs, with_url, with_storage_options. rewrite Hso.
  destruct (Reader.url_arg cls) as [u|]; [destruct (truthy (Some u))|];
    rewrite ?lookup_insert_ne by congruence; apply lookup_insert_eq.
Qed.

Section read_claims.
Context {Obj : Type} (W : World Obj).

Lemma read_finishes n cls data kwargs :
  finishes (BaseReader_read W (2 + n) cls data kwargs).
Proof. intros t. rewrite read_fuel_irrelevant. apply read_finishes_at_two. Qed.

Lemma calls_with_elem (Q : gmap string value → Prop) (new : list (event Obj)) name kw :
  Forall (calls_with Q) new → ECall name kw ∈ new → Q kw.
Proof. rewrite Forall_forall. intros H Hin. exact (H _ Hin). Qed.
End read_claims.

(** C10. [read] terminates: two levels of fuel always suffice (one call of
    [read] and the sub-loads it makes), more fuel changes nothing, and the
    reason is the one the code shows: each sub-load is entered with the url
    keyword among its keywords, which makes the guard of the fan-out false. *)
Theorem read_terminates_depth_one {Obj} (W : World Obj) (cls : Reader.t) (data : Data.t)
    (kwargs : gmap string value) (t : list (event Obj)) :
  (BaseReader_read W 2 cls data kwargs t).1 ≠ OutOfFuel
  ∧ (∀ n, BaseReader_read W (2 + n) cls data kwargs t
          = BaseReader_read W 2 cls data kwargs t)
  ∧ (∀ u c afile kw, fan_out_names cls kwargs = Some (u, c) →
       fan_out_names cls (<[u := VStr afile]> kw) = None).
Proof.
  split; [apply read_finishes_at_two | split].
  - intros n. apply read_fuel_irrelevant.
  - intros u c afile kw (Hu & _)%fan_out_names_Some. by apply fan_out_names_insert.
Qed.

Lemma read_terminates_depth_one_witness :
  (BaseReader_read echo_world 2 PandasCSV two_csv_files ∅ []).1 ≠ OutOfFuel
  ∧ (∀ n, BaseReader_read echo_world (2 + n) PandasCSV two_csv_files ∅ []
          = BaseReader_read echo_world 2 PandasCSV two_csv_files ∅ [])
  ∧ (∀ u c afile kw, fan_out_names PandasCSV ∅ = Some (u, c) →
       fan_out_names PandasCSV (<[u := VStr afile]> kw) = None).
Proof. exact (read_terminates_depth_one echo_world PandasCSV two_csv_files ∅ []). Defined.

(** The bound is reached: with two files, one level of fuel is not enough. *)
Example read_fan_out_needs_two_levels :
  (BaseReader_read echo_world 1 PandasCSV two_csv_files ∅ []).1 = OutOfFuel.
Proof. vm_compute. reflexivity. Qed.

(** ** [DuckDB.func] *)

Lemma append_empty_r (s : string) : String.append s "" = s.
Proof.
  induction s as [|c s IH]; [done|].
  change (String c (String.append s "") = String c s). by rewrite IH.
Qed.

(** The template of the query kind formats to the query text, whatever the
    text contains. *)
Lemma format_query_template data :
  py_format (format_field data) "{self.data.query}" None = Some (Data.query data).
Proof.
  transitivity (Some (String.append (Data.query data) "")).
  - vm_compute. reflexivity.
  - by rewrite append_empty_r.
Qed.

Lemma queries_SQLQuery : queries !! SQLQuery = Some "{self.data.query}".
Proof. vm_compute. reflexivity. Qed.

(** [DuckDB]'s [read] is the call of [DuckDB.func] on the merged keywords. *)
Lemma DuckDB_read_is_func {Obj} (W : World Obj) n data kwargs :
  BaseReader_read W (S n) DuckDB data kwargs
  = bound_call (merged_kwargs data kwargs)
      (DuckDB_func W data (merged_kwargs data kwargs)).
Proof. by rewrite read_single by (by left). Qed.

(** One run of [DuckDB.func] in which duckdb imports and the connection
    opens, for the three forms of [conn] that can be unpacked. *)
Lemma DuckDB_func_run {Obj} (W : World Obj) data kw ckw dd template sql t :
  (Data.conn data = None ∧ ckw = ∅)
  ∨ (∃ s, Data.conn data = Some (VStr s) ∧ ckw = {["database" := VStr s]})
  ∨ (∃ d, Data.conn data = Some (VDict d) ∧ ckw = list_to_map d) →
  queries !! Data.kind data = Some template →
  py_format (format_field data) template None = Some sql →
  import_module W t "duckdb" = None →
  connect W (t ++ [EImportModule "duckdb"]) ckw = inr dd →
  DuckDB_func W data kw t
  = (of_answer (run_query W (t ++ [EImportModule "duckdb"; EConnect ckw]) dd sql),
     t ++ [EImportModule "duckdb"; EConnect ckw; EQuery dd sql]).
Proof.
  intros Hconn Htpl Hsql Himport Hdd.
  assert (connect_kwargs (Data.conn data) = Some ckw) as Hckw.
  { destruct Hconn as [[-> ->]|[(s & -> & ->)|(d & -> & ->)]]; reflexivity. }
  unfold DuckDB_func. rewrite Hckw, Htpl, Hsql.
  unfold mbind, M_bind, do_import_module, do_connect, do_query, external.
  rewrite Himport. simpl. rewrite Hdd. simpl. by rewrite <- !app_assoc.
Qed.

(** C8, as the code has it.  For a descriptor of the query kind whose stored
    keywords and overrides hold no key named [self], once duckdb is imported
    and the connection is opened, [DuckDB]'s [read] has exactly three events:
    the import of duckdb, the connection opened from the descriptor's [conn]
    (no argument without one, [database] for a string, its entries for a
    mapping), and one query on that connection whose text is the descriptor's
    query text, unchanged; what that query hands back (duckdb's relation) is
    what [read] returns. *)
Theorem DuckDB_read_runs_query_verbatim {Obj} (W : World Obj) (n : nat) (data : Data.t)
    (kwargs ckw : gmap string value) (dd : Obj) (t : list (event Obj)) :
  Data.kind data = SQLQuery →
  Data.kwargs data !! "self" = None →
  kwargs !! "self" = None →
  (Data.conn data = None ∧ ckw = ∅)
  ∨ (∃ s, Data.conn data = Some (VStr s) ∧ ckw = {["database" := VStr s]})
  ∨ (∃ d, Data.conn data = Some (VDict d) ∧ ckw = list_to_map d) →
  import_module W t "duckdb" = None →
  connect W (t ++ [EImportModule "duckdb"]) ckw = inr dd →
  BaseReader_read W (S n) DuckDB data kwargs t
  = (of_answer (run_query W (t ++ [EImportModule "duckdb"; EConnect ckw]) dd
                  (Data.query data)),
     t ++ [EImportModule "duckdb"; EConnect ckw; EQuery dd (Data.query data)]).
Proof.
  intros Hkind Hstored Hgiven Hconn Himport Hdd.
  rewrite DuckDB_read_is_func, bound_call_no_self.
  - apply DuckDB_func_run with "{self.data.query}"; try done.
    + rewrite Hkind. apply queries_SQLQuery.
    + apply format_query_template.
  - by rewrite merged_kwargs_lookup, Hgiven.
Qed.

Lemma DuckDB_read_select_one :
  BaseReader_read echo_world 1 DuckDB select_one ∅ []
  = (Ret (TRelation (TConn ∅) "SELECT 1"),
     [EImportModule "duckdb"; EConnect ∅; EQuery (TConn ∅) "SELECT 1"])
  ∧ BaseReader_read echo_world 1 DuckDB query_on_file_db ∅ []
    = (Ret (TRelation (TConn {["database" := VStr "my.db"]}) "SELECT 1"),
       [EImportModule "duckdb"; EConnect {["database" := VStr "my.db"]};
        EQuery (TConn {["database" := VStr "my.db"]}) "SELECT 1"]).
Proof.
  split.
  - apply (DuckDB_read_runs_query_verbatim echo_world 0 select_one ∅ ∅ (TConn ∅) []).
    + reflexivity.
    + reflexivity.
    + reflexivity.
    + left. split; reflexivity.
    + reflexivity.
    + reflexivity.
  - apply (DuckDB_read_runs_query_verbatim echo_world 0 query_on_file_db ∅
             {["database" := VStr "my.db"]} (TConn {["database" := VStr "my.db"]}) []).
    + reflexivity.
    + reflexivity.
    + reflexivity.
    + right. left. exists "my.db". split; reflexivity.
    + reflexivity.
    + reflexivity.
Defined.

(** C8, as stated, fails for a query descriptor whose stored keywords hold
    the key [self]: the call of [DuckDB.func] is refused before duckdb is
    imported, and no query runs. *)
Lemma DuckDB_read_self_keyword_raises :
  Data.kind query_with_self_keyword = SQLQuery
  ∧ Data.query query_with_self_keyword = "SELECT 1"
  ∧ BaseReader_read echo_world 1 DuckDB query_with_self_keyword ∅ []
    = (Raise TypeError, []).
Proof. split; [reflexivity | split; [reflexivity | vm_compute; reflexivity]]. Qed.

(** The run on the text [SELECT 1], in full. *)
Example DuckDB_read_select_one_trace :
  BaseReader_read echo_world 1 DuckDB select_one ∅ []
  = (Ret (TRelation (TConn ∅) "SELECT 1"),
     [EImportModule "duckdb"; EConnect ∅; EQuery (TConn ∅) "SELECT 1"]).
Proof. vm_compute. reflexivity. Qed.

(** ** Storage options *)

(** C9, as the code has it.  For a class with the [storage_options] flag
    whose url keyword is not itself named [storage_options], every call of the
    load function that [read] makes carries the descriptor's storage options
    under the key [storage_options], whatever the caller's overrides hold
    under that key; and the run completes. *)
Theorem read_injects_storage_options {Obj} (W : World Obj) (n : nat) (cls : Reader.t)
    (data : Data.t) (overrides : gmap string value) (t : list (event Obj)) :
  Reader.storage_options cls = true →
  Reader.url_arg cls ≠ Some "storage_options" →
  (BaseReader_read W (2 + n) cls data overrides t).1 ≠ OutOfFuel
  ∧ ∃ new, (BaseReader_read W (2 + n) cls data overrides t).2 = t ++ new
      ∧ ∀ name kw, ECall name kw ∈ new →
          kw !! "storage_options" = Some (Data.storage_options data).
Proof.
  intros Hso Hu. split; [apply read_finishes|].
  set (Q := λ kw : gmap string value,
      kw !! "storage_options" = Some (Data.storage_options data)).
  destruct (read_emits_calls W Q (λ _, True) cls data) with (fuel := 2 + n)
    (kwargs := overrides) (t := t) as (new & Heq & Hnew); [| done | done |].
  - intros kwargs _. by apply single_call_kwargs_storage.
  - exists new. split; [done|]. intros name kw Hin.
    exact (calls_with_elem Q new name kw Hnew Hin).
Qed.

Lemma read_injects_storage_options_witness :
  (BaseReader_read echo_world (2 + 0) RemoteReader remote_file
     {["storage_options" := VStr "mine"]} []).1 ≠ OutOfFuel
  ∧ ∃ new, (BaseReader_read echo_world (2 + 0) RemoteReader remote_file
              {["storage_options" := VStr "mine"]} []).2 = [] ++ new
      ∧ ∀ name kw, ECall name kw ∈ new →
          kw !! "storage_options" = Some (Data.storage_options remote_file).
Proof.
  apply (read_injects_storage_options echo_world 0 RemoteReader remote_file
           {["storage_options" := VStr "mine"]} []).
  - reflexivity.
  - simpl. discriminate.
Defined.

(** The same run, in full: the caller's value is gone. *)
Example read_storage_options_override_lost :
  BaseReader_read echo_world 2 RemoteReader remote_file
    {["storage_options" := VStr "mine"]} []
  = (Ret (TCall "pkg:load"
            {["path" := VStr "s3://bucket/a.parquet";
              "storage_options" := VDict [("anon", VBool true)]]}),
     [EImportName "pkg:load";
      ECall "pkg:load"
        {["path" := VStr "s3://bucket/a.parquet";
          "storage_options" := VDict [("anon", VBool true)]]}]).
Proof. vm_compute. reflexivity. Qed.

(** C9, as stated, fails for a class whose url keyword is named
    [storage_options]: the url is written last, and the load function gets
    the descriptor's url under that key. *)
Lemma read_storage_options_lost_to_url :
  Reader.storage_options ClashReader = true
  ∧ BaseReader_read echo_world 2 ClashReader remote_file ∅ []
    = (Ret (TCall "pkg:load" {["storage_options" := VStr "s3://bucket/a.parquet"]}),
       [EImportName "pkg:load";
        ECall "pkg:load" {["storage_options" := VStr "s3://bucket/a.parquet"]}])
  ∧ ({["storage_options" := VStr "s3://bucket/a.parquet"]} : gmap string value)
      !! "storage_options" ≠ Some (Data.storage_options remote_file).
Proof.
  split; [reflexivity | split; [vm_compute; reflexivity|]].
  rewrite lookup_singleton_eq. simpl. discriminate.
Qed.

(** ** One file *)

(** C5, as stated, fails when the descriptor's url is not the one entry of
    its file list: [read] calls the load function on the url, which is not
    the call of the load function on that file. *)
Lemma read_one_file_uses_url_not_file :
  Data.filelist one_csv_file = ["data/a.csv"]
  ∧ BaseReader_read echo_world 2 PandasCSV one_csv_file ∅ []
    = (Ret (TCall "pandas:read_csv" {["filepath_or_buffer" := VStr "data/*.csv"]}),
       [EImportName "pandas:read_csv";
        ECall "pandas:read_csv" {["filepath_or_buffer" := VStr "data/*.csv"]}])
  ∧ invoke_func echo_world PandasCSV one_csv_file
      {["filepath_or_buffer" := VStr "data/a.csv"]} []
    = (Ret (TCall "pandas:read_csv" {["filepath_or_buffer" := VStr "data/a.csv"]}),
       [EImportName "pandas:read_csv";
        ECall "pandas:read_csv" {["filepath_or_buffer" := VStr "data/a.csv"]}])
  ∧ BaseReader_read echo_world 2 PandasCSV one_csv_file ∅ []
    ≠ invoke_func echo_world PandasCSV one_csv_file
        {["filepath_or_buffer" := VStr "data/a.csv"]} [].
Proof.
  split; [reflexivity|].
  split; [vm_compute; reflexivity|].
  split; [vm_compute; reflexivity|].
  vm_compute. intros H. discriminate H.
Qed.

(** ** The url keyword *)

(** Whatever the keywords [read] is entered with, a class with a url keyword
    has every call of its load function carry the descriptor's [url] under
    it: the last assignment before the call writes it, also in a sub-load
    and also over a value the caller gave. *)
Lemma read_calls_carry_url {Obj} (W : World Obj) fuel cls data kwargs u t :
  Reader.url_arg cls = Some u → u ≠ "" →
  ∃ new, (BaseReader_read W fuel cls data kwargs t).2 = t ++ new
    ∧ ∀ name kw, ECall name kw ∈ new → kw !! u = Some (VStr (Data.url data)).
Proof.
  intros Hu Hne.
  set (Q := λ kw : gmap string value, kw !! u = Some (VStr (Data.url data))).
  destruct (read_emits_calls W Q (λ _, True) cls data) with (fuel := fuel)
    (kwargs := kwargs) (t := t) as (new & Heq & Hnew); [| done | done |].
  - intros kwargs' _. by apply single_call_kwargs_url.
  - exists new. split; [done|]. intros name kw Hin.
    exact (calls_with_elem Q new name kw Hnew Hin).
Qed.

(** C2, on the code: for two files behind the url [data/*.csv], [read] makes
    one sub-load per file, in order, and merges the two results with the
    concat function, but both calls of the load function get the url
    [data/*.csv] under the url keyword, not [data/a.csv] and [data/b.csv]. *)
Theorem read_fan_out_calls_get_url_not_file :
  Data.filelist two_csv_files = ["data/a.csv"; "data/b.csv"]
  ∧ BaseReader_read echo_world 2 PandasCSV two_csv_files ∅ []
    = (Ret (TConcat "pandas:concat"
              [TCall "pandas:read_csv" {["filepath_or_buffer" := VStr "data/*.csv"]};
               TCall "pandas:read_csv" {["filepath_or_buffer" := VStr "data/*.csv"]}]),
       [EImportName "pandas:concat";
        EImportName "pandas:read_csv";
        ECall "pandas:read_csv" {["filepath_or_buffer" := VStr "data/*.csv"]};
        EImportName "pandas:read_csv";
        ECall "pandas:read_csv" {["filepath_or_buffer" := VStr "data/*.csv"]};
        EConcat "pandas:concat"
          [TCall "pandas:read_csv" {["filepath_or_buffer" := VStr "data/*.csv"]};
           TCall "pandas:read_csv" {["filepath_or_buffer" := VStr "data/*.csv"]}]]).
Proof. split; [reflexivity | vm_compute; reflexivity]. Qed.

(** ** [PandasCSV.glimpse] *)

(** [glimpse] is one call of the load function, with [nrows] 10 unless the
    caller says otherwise, and with the descriptor's [url] under the url
    keyword. *)
Lemma PandasCSV_glimpse_one_call {Obj} (W : World Obj) n data kwargs first rest :
  Data.filelist data = first :: rest →
  ∃ kw, PandasCSV_glimpse W (S n) PandasCSV data kwargs = invoke_func W PandasCSV data kw
    ∧ kw !! "filepath_or_buffer" = Some (VStr (Data.url data))
    ∧ (kwargs !! "nrows" = None → kw !! "nrows" = Some (VInt 10)).
Proof.
  intros Hfiles. unfold PandasCSV_glimpse. rewrite Hfiles.
  change (Reader.url_arg PandasCSV) with (Some "filepath_or_buffer").
  change ((first :: rest) !! 0) with (Some first).
  set (given := kwargs ∪ <["filepath_or_buffer" := VStr first]> {["nrows" := VInt 10]}).
  exists (single_call_kwargs PandasCSV data given). split; [|split].
  - apply read_single. left.
    apply fan_out_names_given with "filepath_or_buffer"; [done|].
    unfold given. rewrite lookup_union, lookup_insert_eq.
    destruct (kwargs !! "filepath_or_buffer"); by eexists.
  - by apply single_call_kwargs_url.
  - intros Hnone. rewrite single_call_kwargs_other.
    + rewrite merged_kwargs_lookup. unfold given. rewrite lookup_union, Hnone.
      rewrite lookup_insert_ne by done. by rewrite lookup_singleton_eq.
    + intros [[Hso _]|Hu]; [done | discriminate Hu].
Qed.

(** C6, on the code: for a descriptor whose file list is [data/a.csv] and
    whose url is [data/*.csv], [glimpse] calls the load function once, with
    [nrows] 10, on the url [data/*.csv] and not on the file of the list. *)
Theorem PandasCSV_glimpse_gets_url_not_first_file :
  Data.filelist one_csv_file = ["data/a.csv"]
  ∧ PandasCSV_glimpse echo_world 2 PandasCSV one_csv_file ∅ []
    = (Ret (TCall "pandas:read_csv"
              {["filepath_or_buffer" := VStr "data/*.csv"; "nrows" := VInt 10]}),
       [EImportName "pandas:read_csv";
        ECall "pandas:read_csv"
          {["filepath_or_buffer" := VStr "data/*.csv"; "nrows" := VInt 10]}]).
Proof. split; [reflexivity | vm_compute; reflexivity]. Qed.

(** * Further properties of the module *)

(** ** [recommend], beyond the flag *)

(** X1. [recommend] is the set of the enumerated classes whose [implements]
    holds the descriptor's class, whatever the value of [check_imports]: the
    flag has no effect on the result. *)
Theorem recommend_is_filter_by_kind (subclasses : list Reader.t) (data : Data.t)
    (check : bool) :
  recommend subclasses data check
  = list_to_set (filter (λ V, Data.kind data ∈ Reader.implements V) subclasses).
Proof.
  apply set_eq. intros V.
  rewrite recommend_elem, elem_of_list_to_set, list_elem_of_filter. tauto.
Qed.

(** X2. The result for an enumeration in two parts is the union of the
    results for the parts, and two enumerations of the same classes, in any
    order and with any repetition, give the same result. *)
Theorem recommend_union_of_parts (l1 l2 : list Reader.t) (data : Data.t) (check : bool) :
  recommend (l1 ++ l2) data check = recommend l1 data check ∪ recommend l2 data check
  ∧ ((∀ V, V ∈ l1 ↔ V ∈ l2) → recommend l1 data check = recommend l2 data check).
Proof.
  split.
  - apply set_eq. intros V. rewrite elem_of_union, !recommend_elem, elem_of_app. tauto.
  - intros Hsame. apply set_eq. intros V. rewrite !recommend_elem, Hsame. tauto.
Qed.

Lemma recommend_union_of_parts_witness :
  recommend ([PandasCSV; DuckDB] ++ [DuckDB; PandasCSV; PandasCSV]) one_csv_file true
  = recommend [PandasCSV; DuckDB] one_csv_file true
    ∪ recommend [DuckDB; PandasCSV; PandasCSV] one_csv_file true
  ∧ ((∀ V, V ∈ [PandasCSV; DuckDB] ↔ V ∈ [DuckDB; PandasCSV; PandasCSV]) →
     recommend [PandasCSV; DuckDB] one_csv_file true
     = recommend [DuckDB; PandasCSV; PandasCSV] one_csv_file true).
Proof.
  exact (recommend_union_of_parts [PandasCSV; DuckDB] [DuckDB; PandasCSV; PandasCSV]
           one_csv_file true).
Defined.

(** Membership in a set written out element by element, for the classes
    and kinds of the module: the [implements] set of a class is unfolded as
    it is written, and membership becomes a disjunction of equations. *)
Ltac implements_goal :=
  cbv [Reader.implements Pandas PandasParquet DaskParquet DuckDB PandasDuck Awkward
       AwkwardParquet PandasCSV].
Ltac implements_of H :=
  cbv [Reader.implements Pandas PandasParquet DaskParquet DuckDB PandasDuck Awkward
       AwkwardParquet PandasCSV] in H.
Ltac listed := rewrite ?elem_of_union, ?elem_of_singleton, ?elem_of_empty; auto 12.
Ltac not_listed H :=
  exfalso; revert H; rewrite ?elem_of_union, ?elem_of_singleton, ?elem_of_empty;
  let X := fresh in
  intros X; repeat (destruct X as [X|X]); solve [discriminate X | exact X].

(** X3. A class that implements nothing, as the bases [BaseReader], [Pandas]
    and [Awkward] do, is never recommended; and over the classes of this
    module the result is decided by the descriptor's class alone: the five
    columnar readers for [Parquet], three readers for [CSV], the two duckdb
    readers for [JSONFile] and [SQLQuery], none for any other class. *)
Theorem recommend_by_kind_in_module (data : Data.t) (check : bool) :
  (∀ subclasses V, Reader.implements V = ∅ → V ∉ recommend subclasses data check)
  ∧ recommend module_subclasses data check
    = match Data.kind data with
      | Parquet => {[PandasParquet; DaskParquet; DuckDB; PandasDuck; AwkwardParquet]}
      | CSV => {[DuckDB; PandasDuck; PandasCSV]}
      | JSONFile | SQLQuery => {[DuckDB; PandasDuck]}
      | OtherKind _ => ∅
      end.
Proof.
  split.
  - intros subclasses V Hnone. rewrite recommend_elem, Hnone.
    rewrite elem_of_empty. tauto.
  - apply set_eq. intros V. rewrite recommend_elem. unfold module_subclasses.
    rewrite !elem_of_cons, elem_of_nil.
    destruct (Data.kind data);
      (split;
       [ intros [Hin Himpl];
         repeat (destruct Hin as [->|Hin];
                 [implements_of Himpl;
                  first [solve [not_listed Himpl] | solve [listed]]|]);
         destruct Hin
       | rewrite ?elem_of_union, ?elem_of_singleton, ?elem_of_empty;
         intros H; repeat (destruct H as [H|H]); try (exfalso; exact H); subst V;
         (split; [auto 12 | implements_goal; listed]) ]).
Qed.

Lemma recommend_by_kind_in_module_witness :
  (∀ subclasses V, Reader.implements V = ∅ →
     V ∉ recommend subclasses three_parquet_files false)
  ∧ recommend module_subclasses three_parquet_files false
    = match Data.kind three_parquet_files with
      | Parquet => {[PandasParquet; DaskParquet; DuckDB; PandasDuck; AwkwardParquet]}
      | CSV => {[DuckDB; PandasDuck; PandasCSV]}
      | JSONFile | SQLQuery => {[DuckDB; PandasDuck]}
      | OtherKind _ => ∅
      end.
Proof. exact (recommend_by_kind_in_module three_parquet_files false). Defined.

(** ** [check_imports], every outcome *)

(** X4. [check_imports] returns true exactly when the lookup of every
    required package succeeds (so always for a class that requires nothing);
    when it returns false, the lookup of a required package raised an
    exception of a handled class; and when it raises, what it raises is an
    exception of an unhandled class that the lookup of a required package
    raised.  The optional packages are never looked up. *)
Theorem check_imports_outcomes (distribution : string → option exn) (cls : Reader.t) :
  (check_imports distribution cls = inr true ↔
     ∀ p, p ∈ Reader.imports cls → distribution p = None)
  ∧ (check_imports distribution cls = inr false →
     ∃ p e, p ∈ Reader.imports cls ∧ distribution p = Some e ∧ is_handled e = true)
  ∧ (∀ e, check_imports distribution cls = inl e →
     is_handled e = false ∧ ∃ p, p ∈ Reader.imports cls ∧ distribution p = Some e)
  ∧ (Reader.imports cls = ∅ → check_imports distribution cls = inr true).
Proof.
  assert (Htrue : check_imports distribution cls = inr true ↔
                  ∀ p, p ∈ Reader.imports cls → distribution p = None).
  { unfold check_imports.
    destruct (first_raise distribution (elements (Reader.imports cls))) as [e|] eqn:Hfirst.
    - split; [by destruct (is_handled e)|].
      intros Hall. destruct (first_raise_Some _ _ _ Hfirst) as (p & Hp%elem_of_elements & He).
      rewrite (Hall p Hp) in He. discriminate.
    - split; [|done]. intros _ p Hp. rewrite first_raise_None in Hfirst.
      apply Hfirst. by apply elem_of_elements. }
  split; [exact Htrue | split; [|split]].
  - unfold check_imports.
    destruct (first_raise distribution (elements (Reader.imports cls))) as [e|] eqn:Hfirst;
      [|done].
    destruct (first_raise_Some _ _ _ Hfirst) as (p & Hp%elem_of_elements & He).
    destruct (is_handled e) eqn:Hh; [|done]. intros _. by exists p, e.
  - intros e. unfold check_imports.
    destruct (first_raise distribution (elements (Reader.imports cls))) as [e'|] eqn:Hfirst;
      [|done].
    destruct (first_raise_Some _ _ _ Hfirst) as (p & Hp%elem_of_elements & He).
    destruct (is_handled e') eqn:Hh; [done|]. intros [= <-]. split; [done|]. by exists p.
  - intros Hnone. apply Htrue. intros p. rewrite Hnone. set_solver.
Qed.

Lemma check_imports_outcomes_witness :
  (∃ p e, p ∈ Reader.imports PandasCSV ∧ nothing_installed p = Some e
          ∧ is_handled e = true)
  ∧ (is_handled OSError = false
     ∧ ∃ p, p ∈ Reader.imports Pandas ∧ lookup_broken p = Some OSError)
  ∧ check_imports (λ _, None) PandasDuck = inr true
  ∧ check_imports lookup_broken BaseReader = inr true.
Proof.
  split; [|split; [|split]].
  - apply (proj1 (proj2 (check_imports_outcomes nothing_installed PandasCSV))).
    vm_compute. reflexivity.
  - apply (proj1 (proj2 (proj2 (check_imports_outcomes lookup_broken Pandas))) OSError).
    vm_compute. reflexivity.
  - apply (proj1 (check_imports_outcomes (λ _, None) PandasDuck)).
    intros p _. reflexivity.
  - apply (proj2 (proj2 (proj2 (check_imports_outcomes lookup_broken BaseReader)))).
    reflexivity.
Defined.

(** ** [BaseReader.read]: merging, failures, and when it does not fan out *)

Section read_runs.
Context {Obj : Type} (W : World Obj).
Implicit Types (cls : Reader.t) (data : Data.t) (kw kwargs : gmap string value).

Lemma invoke_func_no_concat cls data kw :
  emits (λ e : event Obj, is_concat e = false) (invoke_func W cls data kw).
Proof. apply invoke_func_emits. by intros e He _. Qed.

(** A sub-load calls no concat function, whatever fuel is left for it. *)
Lemma read_sub_load_no_concat fuel cls data kw u v :
  Reader.url_arg cls = Some u →
  emits (λ e : event Obj, is_concat e = false)
    (BaseReader_read W fuel cls data (<[u := v]> kw)).
Proof.
  intros Hu. destruct fuel as [|n]; [apply emits_out_of_fuel|].
  rewrite read_sub_load by done. apply invoke_func_no_concat.
Qed.

(** The loop: no concat event, and on success one more part per file. *)
Lemma read_parts_run (sub_read : gmap string value → M Obj Obj) u files kw parts t :
  (∀ afile kw', emits (λ e : event Obj, is_concat e = false)
                  (sub_read (<[u := VStr afile]> kw'))) →
  ∃ new, (read_parts sub_read u files kw parts t).2 = t ++ new
    ∧ Forall (λ e, is_concat e = false) new
    ∧ ∀ ps, (read_parts sub_read u files kw parts t).1 = Ret ps →
        length ps = length parts + length files.
Proof.
  intros Hsub. revert kw parts t.
  induction files as [|afile rest IH]; intros kw parts t; simpl.
  - exists []. rewrite app_nil_r. split; [done | split; [constructor|]].
    intros ps [= <-]. lia.
  - unfold mbind, M_bind.
    destruct (Hsub afile kw t) as (new1 & Heq1 & Hnew1).
    destruct (sub_read (<[u := VStr afile]> kw) t) as [[part| |] t1];
      simpl in Heq1; subst t1.
    + destruct (IH (<[u := VStr afile]> kw) (parts ++ [part]) (t ++ new1))
        as (new2 & Heq2 & Hnew2 & Hlen).
      exists (new1 ++ new2). split; [by rewrite Heq2, app_assoc|].
      split; [by apply Forall_app|].
      intros ps Hps. rewrite (Hlen ps Hps), length_app. simpl. lia.
    + exists new1. split; [done | split; [done | by intros ps]].
    + exists new1. split; [done | split; [done | by intros ps]].
Qed.

(** A run that fans out: it stops before the merge without a result and
    without a concat event, or its last event is the one call of the concat
    function, on one part per file, and the answer of that call is the
    outcome. *)
Lemma read_fan_out_shape n cls data kwargs u c t :
  fan_out_names cls kwargs = Some (u, c) →
  1 < length (Data.filelist data) →
  (∃ pre, (BaseReader_read W (S n) cls data kwargs t).2 = t ++ pre
     ∧ Forall (λ e, is_concat e = false) pre
     ∧ ∀ r, (BaseReader_read W (S n) cls data kwargs t).1 ≠ Ret r)
  ∨ (∃ pre ps,
       BaseReader_read W (S n) cls data kwargs t
       = (of_answer (call_concat W (t ++ pre) c ps), (t ++ pre) ++ [EConcat c ps])
       ∧ Forall (λ e, is_concat e = false) pre
       ∧ length ps = length (Data.filelist data)).
Proof.
  intros Hf Hlen. rewrite (read_fan_out _ _ _ _ _ _ _ Hf Hlen).
  apply fan_out_names_Some in Hf as (Hu & _).
  unfold mbind, M_bind, do_import_name, external at 1. simpl.
  destruct (import_name W t c) as [e|]; simpl.
  - left. exists [EImportName c]. split; [done | split; [by repeat constructor | done]].
  - destruct (read_parts_run (sub_load W n cls data) u (Data.filelist data)
                (with_storage_options cls data (merged_kwargs data kwargs)) []
                (t ++ [EImportName c])) as (new & Heq & Hnew & Hps).
    { intros afile kw'. by apply emits_bound_call, read_sub_load_no_concat. }
    destruct (read_parts _ _ _ _ _ _) as [[ps| |] t1]; simpl in Heq; subst t1.
    + right. exists ([EImportName c] ++ new), ps.
      unfold do_concat, external. rewrite !app_assoc.
      split; [done | split; [apply Forall_app; by repeat constructor|]].
      by rewrite (Hps ps eq_refl).
    + left. exists ([EImportName c] ++ new). rewrite app_assoc.
      split; [done | split; [apply Forall_app; by repeat constructor | done]].
    + left. exists ([EImportName c] ++ new). rewrite app_assoc.
      split; [done | split; [apply Forall_app; by repeat constructor | done]].
Qed.
End read_runs.

(** X5. In every run of [read], complete or not, a call of a concat function
    is a call of the class's own [concat_func], on exactly one part per file
    of the list, made only when the list has more than one file, and it is the
    last event of the run. *)
Theorem read_concat_gets_one_part_per_file {Obj} (W : World Obj) (fuel : nat)
    (cls : Reader.t) (data : Data.t) (kwargs : gmap string value)
    (t : list (event Obj)) :
  ∃ new, (BaseReader_read W fuel cls data kwargs t).2 = t ++ new
    ∧ ∀ name parts, EConcat name parts ∈ new →
        Reader.concat_func cls = Some name
        ∧ length parts = length (Data.filelist data)
        ∧ 1 < length (Data.filelist data)
        ∧ last new = Some (EConcat name parts).
Proof.
  assert (Hnone : ∀ (new : list (event Obj)) name parts,
            Forall (λ e, is_concat e = false) new → EConcat name parts ∈ new → False).
  { intros new name parts Hall Hin. rewrite Forall_forall in Hall.
    specialize (Hall _ Hin). discriminate. }
  destruct fuel as [|n].
  { exists []. split; [by rewrite app_nil_r|]. intros name parts Hin. inversion Hin. }
  read_paths cls data kwargs Hf Hlen.
  - destruct (read_fan_out_shape W n cls data kwargs _ _ t Hf Hlen)
      as [(pre & Heq & Hpre & _)|(pre & ps & Heq & Hpre & Hps)].
    + exists pre. split; [done|]. intros name parts Hin. destruct (Hnone _ _ _ Hpre Hin).
    + rewrite Heq. simpl. eexists. split; [by rewrite <- app_assoc|].
      intros name parts [Hin|Hin]%elem_of_app; [destruct (Hnone _ _ _ Hpre Hin)|].
      apply list_elem_of_singleton in Hin. injection Hin as -> ->.
      apply fan_out_names_Some in Hf as (_ & Hc & _).
      by rewrite last_snoc.
  - rewrite read_single by auto.
    destruct (invoke_func_no_concat W cls data (single_call_kwargs cls data kwargs) t)
      as (new & Heq & Hnew).
    exists new. split; [done|]. intros name parts Hin. destruct (Hnone _ _ _ Hnew Hin).
  - rewrite read_single by auto.
    destruct (invoke_func_no_concat W cls data (single_call_kwargs cls data kwargs) t)
      as (new & Heq & Hnew).
    exists new. split; [done|]. intros name parts Hin. destruct (Hnone _ _ _ Hnew Hin).
Qed.

Lemma read_concat_gets_one_part_per_file_witness :
  ∃ new, (BaseReader_read echo_world 2 PandasCSV two_csv_files ∅ []).2 = [] ++ new
    ∧ ∀ name parts, EConcat name parts ∈ new →
        Reader.concat_func PandasCSV = Some name
        ∧ length parts = length (Data.filelist two_csv_files)
        ∧ 1 < length (Data.filelist two_csv_files)
        ∧ last new = Some (EConcat name parts).
Proof.
  exact (read_concat_gets_one_part_per_file echo_world 2 PandasCSV two_csv_files ∅ []).
Defined.



(** The run in which the second file fails: the first part is dropped, the
    exception is the outcome, and nothing is merged. *)
Example read_fan_out_second_file_fails :
  BaseReader_read second_call_fails 2 PandasCSV two_csv_files ∅ []
  = (Raise OSError,
     [EImportName "pandas:concat";
      EImportName "pandas:read_csv";
      ECall "pandas:read_csv" {["filepath_or_buffer" := VStr "data/*.csv"]};
      EImportName "pandas:read_csv";
      ECall "pandas:read_csv" {["filepath_or_buffer" := VStr "data/*.csv"]}]).
Proof. vm_compute. reflexivity. Qed.

(** X7. When no name resolves, [read] of a class whose [func] is a name
    raises the resolver's exception after a single attempt (on the concat
    function if it was about to fan out, on the load function otherwise), and
    calls neither a load function nor a concat function. *)
Theorem read_unresolved_name_calls_nothing {Obj} (W : World Obj) (n : nat)
    (cls : Reader.t) (data : Data.t) (kwargs : gmap string value) (f : string)
    (e : exn) (t : list (event Obj)) :
  Reader.func cls = FuncName f →
  (∀ name, import_name W t name = Some e) →
  ∃ name, BaseReader_read W (S n) cls data kwargs t = (Raise e, t ++ [EImportName name])
    ∧ (name = f ∨ Reader.concat_func cls = Some name).
Proof.
  intros Hfunc Hnone.
  read_paths cls data kwargs Hf Hlen.
  - rewrite (read_fan_out _ _ _ _ _ _ _ Hf Hlen).
    apply fan_out_names_Some in Hf as (_ & Hc & _).
    eexists. split; [|right; exact Hc].
    unfold mbind, M_bind, do_import_name, external at 1. by rewrite Hnone.
  - rewrite read_single by auto. exists f. split; [|by left].
    unfold invoke_func. rewrite Hfunc.
    unfold mbind, M_bind, do_import_name, external at 1. by rewrite Hnone.
  - rewrite read_single by auto. exists f. split; [|by left].
    unfold invoke_func. rewrite Hfunc.
    unfold mbind, M_bind, do_import_name, external at 1. by rewrite Hnone.
Qed.

Lemma read_unresolved_name_calls_nothing_witness :
  ∃ name, BaseReader_read unresolvable_world 1 PandasCSV two_csv_files ∅ []
          = (Raise ImportError, [] ++ [EImportName name])
    ∧ (name = "pandas:read_csv" ∨ Reader.concat_func PandasCSV = Some name).
Proof.
  apply (read_unresolved_name_calls_nothing unresolvable_world 0 PandasCSV two_csv_files ∅
           "pandas:read_csv" ImportError []).
  - reflexivity.
  - intros name. reflexivity.
Defined.

(** X8. [read] does not fan out, however many files the descriptor lists,
    when the class has no url keyword, or has no concat function (as the
    readers whose backend takes the whole list do), or the caller passed the
    url keyword, or the list has at most one file: the run is then a single
    call of the load function and holds no concat event. *)
Theorem read_single_call_conditions {Obj} (W : World Obj) (n : nat) (cls : Reader.t)
    (data : Data.t) (kwargs : gmap string value) (t : list (event Obj)) :
  truthy (Reader.url_arg cls) = false
  ∨ truthy (Reader.concat_func cls) = false
  ∨ (∃ u, Reader.url_arg cls = Some u ∧ is_Some (kwargs !! u))
  ∨ (length (Data.filelist data) ≤ 1)%nat →
  BaseReader_read W (S n) cls data kwargs t
  = invoke_func W cls data (single_call_kwargs cls data kwargs) t
  ∧ ∃ new, (BaseReader_read W (S n) cls data kwargs t).2 = t ++ new
      ∧ ∀ e, e ∈ new → is_concat e = false.
Proof.
  intros Hcond.
  assert (Hsingle : BaseReader_read W (S n) cls data kwargs
                    = invoke_func W cls data (single_call_kwargs cls data kwargs)).
  { apply read_single.
    destruct Hcond as [Hu|[Hc|[(u & Hu & Hgiven)|Hlen]]].
    - left. unfold fan_out_names.
      destruct (Reader.url_arg cls) as [u|]; [|done].
      destruct (Reader.concat_func cls); [|done]. by rewrite Hu.
    - left. unfold fan_out_names.
      destruct (Reader.url_arg cls) as [u|]; [|done].
      destruct (Reader.concat_func cls) as [c|]; [|done].
      by rewrite Hc, andb_false_r.
    - left. by apply fan_out_names_given with u.
    - right. lia. }
  rewrite Hsingle. split; [done|].
  destruct (invoke_func_no_concat W cls data (single_call_kwargs cls data kwargs) t)
    as (new & Heq & Hnew).
  exists new. split; [done | by apply Forall_forall].
Qed.

Lemma read_single_call_conditions_witness :
  BaseReader_read echo_world 1 PandasParquet three_parquet_files ∅ []
  = invoke_func echo_world PandasParquet three_parquet_files
      (single_call_kwargs PandasParquet three_parquet_files ∅) []
  ∧ ∃ new, (BaseReader_read echo_world 1 PandasParquet three_parquet_files ∅ []).2
           = [] ++ new
      ∧ ∀ e, e ∈ new → is_concat e = false.
Proof.
  apply (read_single_call_conditions echo_world 0 PandasParquet three_parquet_files ∅ []).
  right. left. reflexivity.
Defined.

(** The same run, in full: one call, on the directory, for three files. *)
Example read_PandasParquet_three_files :
  BaseReader_read echo_world 1 PandasParquet three_parquet_files ∅ []
  = (Ret (TCall "pandas:read_parquqet" {["path" := VStr "lake/"]}),
     [EImportName "pandas:read_parquqet";
      ECall "pandas:read_parquqet" {["path" := VStr "lake/"]}]).
Proof. vm_compute. reflexivity. Qed.

(** X9. A url that the caller passes under the class's url keyword never
    reaches the load function: it keeps [read] from fanning out, and the
    single call that follows carries the descriptor's [url] under that key. *)
Theorem read_given_url_is_replaced {Obj} (W : World Obj) (n : nat) (cls : Reader.t)
    (data : Data.t) (kwargs : gmap string value) (u : string) (v : value)
    (t : list (event Obj)) :
  Reader.url_arg cls = Some u → u ≠ "" → kwargs !! u = Some v →
  ∃ kw, BaseReader_read W (S n) cls data kwargs t = invoke_func W cls data kw t
    ∧ kw !! u = Some (VStr (Data.url data))
    ∧ ∀ k, ¬ injected_key cls k → kw !! k = merged_kwargs data kwargs !! k.
Proof.
  intros Hu Hne Hv. exists (single_call_kwargs cls data kwargs).
  split; [|split].
  - rewrite read_single; [done|]. left. apply fan_out_names_given with u; [done|].
    by rewrite Hv.
  - by apply single_call_kwargs_url.
  - intros k Hk. by apply single_call_kwargs_other.
Qed.

Lemma read_given_url_is_replaced_witness :
  ∃ kw, BaseReader_read echo_world 1 PandasCSV two_csv_files
          {["filepath_or_buffer" := VStr "mine.csv"]} []
        = invoke_func echo_world PandasCSV two_csv_files kw []
    ∧ kw !! "filepath_or_buffer" = Some (VStr (Data.url two_csv_files))
    ∧ ∀ k, ¬ injected_key PandasCSV k →
           kw !! k
           = merged_kwargs two_csv_files {["filepath_or_buffer" := VStr "mine.csv"]} !! k.
Proof.
  apply (read_given_url_is_replaced echo_world 0 PandasCSV two_csv_files
           {["filepath_or_buffer" := VStr "mine.csv"]} "filepath_or_buffer"
           (VStr "mine.csv") []).
  - reflexivity.
  - discriminate.
  - vm_compute. reflexivity.
Defined.

(** ** The two [glimpse] methods that go through [read] *)

(** X10. [AwkwardParquet.glimpse] is a single call of the load function, for
    any number of files: it carries [row_groups] equal to the list of 0 alone,
    whatever the caller passed under that key, the descriptor's [url] under
    [path], and on every other key the caller's value or else the stored
    one. *)
Theorem AwkwardParquet_glimpse_first_row_group {Obj} (W : World Obj) (n : nat)
    (data : Data.t) (kwargs : gmap string value) (t : list (event Obj)) :
  ∃ kw, AwkwardParquet_glimpse W (S n) AwkwardParquet data kwargs t
        = invoke_func W AwkwardParquet data kw t
    ∧ kw !! "row_groups" = Some (VList [VInt 0])
    ∧ kw !! "path" = Some (VStr (Data.url data))
    ∧ ∀ k, k ≠ "row_groups" → k ≠ "path" → kw !! k = merged_kwargs data kwargs !! k.
Proof.
  set (given := <["row_groups" := VList [VInt 0]]> kwargs).
  assert (Hother : ∀ k, k ≠ "path" → ¬ injected_key AwkwardParquet k).
  { intros k Hk [[Hso _]|Hu]; [discriminate Hso | injection Hu as <-; done]. }
  exists (single_call_kwargs AwkwardParquet data given). split; [|split; [|split]].
  - unfold AwkwardParquet_glimpse. fold given. rewrite read_single; [done|]. by left.
  - rewrite single_call_kwargs_other by (by apply Hother).
    rewrite merged_kwargs_lookup. unfold given. by rewrite lookup_insert_eq.
  - by apply single_call_kwargs_url.
  - intros k Hrow Hpath. rewrite single_call_kwargs_other by (by apply Hother).
    rewrite !merged_kwargs_lookup. unfold given. by rewrite lookup_insert_ne.
Qed.

Lemma AwkwardParquet_glimpse_first_row_group_witness :
  ∃ kw, AwkwardParquet_glimpse echo_world 1 AwkwardParquet three_parquet_files
          {["row_groups" := VList [VInt 1; VInt 2]]} []
        = invoke_func echo_world AwkwardParquet three_parquet_files kw []
    ∧ kw !! "row_groups" = Some (VList [VInt 0])
    ∧ kw !! "path" = Some (VStr (Data.url three_parquet_files))
    ∧ ∀ k, k ≠ "row_groups" → k ≠ "path" →
           kw !! k
           = merged_kwargs three_parquet_files
               {["row_groups" := VList [VInt 1; VInt 2]]} !! k.
Proof.
  exact (AwkwardParquet_glimpse_first_row_group echo_world 0 three_parquet_files
           {["row_groups" := VList [VInt 1; VInt 2]]} []).
Defined.

(** X11. [PandasCSV.glimpse] on a descriptor with an empty file list raises
    [IndexError] before anything is resolved or called.  With at least one
    file it is a single call of the load function, never a fan-out, and
    [nrows] is the caller's value when the caller passes one: the bound of 10
    is only a default. *)
Theorem PandasCSV_glimpse_edges {Obj} (W : World Obj) (n : nat) (data : Data.t)
    (kwargs : gmap string value) (t : list (event Obj)) :
  (Data.filelist data = [] →
   PandasCSV_glimpse W n PandasCSV data kwargs t = (Raise IndexError, t))
  ∧ (∀ first rest v, Data.filelist data = first :: rest → kwargs !! "nrows" = Some v →
     ∃ kw, PandasCSV_glimpse W (S n) PandasCSV data kwargs t
           = invoke_func W PandasCSV data kw t
       ∧ kw !! "nrows" = Some v).
Proof.
  split.
  - intros Hnil. unfold PandasCSV_glimpse. by rewrite Hnil.
  - intros first rest v Hfiles Hv.
    unfold PandasCSV_glimpse. rewrite Hfiles.
    change ((first :: rest) !! 0) with (Some first).
    change (Reader.url_arg PandasCSV) with (Some "filepath_or_buffer").
    set (given := kwargs ∪ <["filepath_or_buffer" := VStr first]> {["nrows" := VInt 10]}).
    exists (single_call_kwargs PandasCSV data given). split.
    + rewrite read_single; [done|]. left.
      apply fan_out_names_given with "filepath_or_buffer"; [done|].
      unfold given. rewrite lookup_union, lookup_insert_eq.
      destruct (kwargs !! "filepath_or_buffer"); by eexists.
    + rewrite single_call_kwargs_other.
      * rewrite merged_kwargs_lookup. unfold given. by rewrite lookup_union, Hv.
      * intros [[Hso _]|Hu]; [discriminate Hso | discriminate Hu].
Qed.

Lemma PandasCSV_glimpse_edges_witness :
  PandasCSV_glimpse echo_world 1 PandasCSV no_csv_file ∅ [] = (Raise IndexError, [])
  ∧ ∃ kw, PandasCSV_glimpse echo_world 1 PandasCSV two_csv_files {["nrows" := VInt 3]} []
          = invoke_func echo_world PandasCSV two_csv_files kw []
      ∧ kw !! "nrows" = Some (VInt 3).
Proof.
  split.
  - apply (proj1 (PandasCSV_glimpse_edges echo_world 1 no_csv_file ∅ [])). reflexivity.
  - apply (proj2 (PandasCSV_glimpse_edges echo_world 0 two_csv_files
                    {["nrows" := VInt 3]} []) "data/a.csv" ["data/b.csv"] (VInt 3)).
    + reflexivity.
    + vm_compute. reflexivity.
Defined.

(** The preview of the first 3 rows of two files: one call, on the url. *)
Example PandasCSV_glimpse_three_rows :
  PandasCSV_glimpse echo_world 1 PandasCSV two_csv_files {["nrows" := VInt 3]} []
  = (Ret (TCall "pandas:read_csv"
            {["filepath_or_buffer" := VStr "data/*.csv"; "nrows" := VInt 3]}),
     [EImportName "pandas:read_csv";
      ECall "pandas:read_csv"
        {["filepath_or_buffer" := VStr "data/*.csv"; "nrows" := VInt 3]}]).
Proof. vm_compute. reflexivity. Qed.

(** ** [DuckDB.func] on files, on other kinds, and its connection *)

Lemma format_file_template data reader :
  reader ∈ ["read_parquet"; "read_csv_auto"; "read_json_auto"] →
  py_format (format_field data)
    (String.append "SELECT * FROM " (String.append reader "('{self.data.url}')")) None
  = Some (file_query reader (Data.url data)).
Proof.
  rewrite !elem_of_cons, elem_of_nil.
  intros [->|[->|[->|[]]]]; vm_compute; reflexivity.
Qed.

Lemma queries_other_kind k : queries !! OtherKind k = None.
Proof. unfold queries. by rewrite !lookup_insert_ne, lookup_singleton_ne. Qed.

(** X12. For a descriptor of columnar, delimited-text or JSON files whose
    stored keywords and overrides hold no key named [self], once duckdb is
    imported and the connection is opened from the descriptor's [conn],
    [DuckDB]'s [read] runs one query on that connection and returns its
    answer, whatever the file list and the keywords: the text is
    [SELECT * FROM reader('url')] with the descriptor's [url] put between the
    quotes as it is, nothing escaped; the file list is not used. *)
Theorem DuckDB_read_file_query {Obj} (W : World Obj) (n : nat) (data : Data.t)
    (kwargs ckw : gmap string value) (reader : string) (dd : Obj)
    (t : list (event Obj)) :
  (Data.kind data, reader)
    ∈ [(Parquet, "read_parquet"); (CSV, "read_csv_auto"); (JSONFile, "read_json_auto")] →
  Data.kwargs data !! "self" = None →
  kwargs !! "self" = None →
  (Data.conn data = None ∧ ckw = ∅)
  ∨ (∃ s, Data.conn data = Some (VStr s) ∧ ckw = {["database" := VStr s]})
  ∨ (∃ d, Data.conn data = Some (VDict d) ∧ ckw = list_to_map d) →
  import_module W t "duckdb" = None →
  connect W (t ++ [EImportModule "duckdb"]) ckw = inr dd →
  BaseReader_read W (S n) DuckDB data kwargs t
  = (of_answer (run_query W (t ++ [EImportModule "duckdb"; EConnect ckw]) dd
                  (file_query reader (Data.url data))),
     t ++ [EImportModule "duckdb"; EConnect ckw;
           EQuery dd (file_query reader (Data.url data))]).
Proof.
  intros Hkind Hstored Hgiven Hconn Himport Hdd.
  assert (queries !! Data.kind data
          = Some (String.append "SELECT * FROM "
                    (String.append reader "('{self.data.url}')"))
          ∧ reader ∈ ["read_parquet"; "read_csv_auto"; "read_json_auto"]) as [Htpl Hreader].
  { rewrite !elem_of_cons, elem_of_nil in Hkind.
    destruct Hkind as [[= -> ->]|[[= -> ->]|[[= -> ->]|[]]]];
      (split; [vm_compute; reflexivity | rewrite !elem_of_cons; auto]). }
  rewrite DuckDB_read_is_func, bound_call_no_self.
  - eapply DuckDB_func_run; [exact Hconn | exact Htpl | | exact Himport | exact Hdd].
    by apply format_file_template.
  - by rewrite merged_kwargs_lookup, Hgiven.
Qed.

Lemma DuckDB_read_file_query_witness :
  BaseReader_read echo_world 1 DuckDB three_parquet_files {["columns" := VList [VStr "a"]]} []
  = (Ret (TRelation (TConn ∅) "SELECT * FROM read_parquet('lake/')"),
     [EImportModule "duckdb"; EConnect ∅;
      EQuery (TConn ∅) "SELECT * FROM read_parquet('lake/')"]).
Proof.
  apply (DuckDB_read_file_query echo_world 0 three_parquet_files
           {["columns" := VList [VStr "a"]]} ∅ "read_parquet" (TConn ∅) []).
  - rewrite elem_of_cons. left. reflexivity.
  - reflexivity.
  - vm_compute. reflexivity.
  - left. split; reflexivity.
  - reflexivity.
  - reflexivity.
Defined.

(** A key named [self] among the keywords: the call of [DuckDB.func] is
    refused, and nothing is imported. *)
Example DuckDB_read_self_keyword_given :
  BaseReader_read echo_world 1 DuckDB three_parquet_files {["self" := VInt 1]} []
  = (Raise TypeError, []).
Proof. vm_compute. reflexivity. Qed.

(** The run on three columnar files, in full: one query, on the directory. *)
Example DuckDB_read_three_files :
  BaseReader_read echo_world 1 DuckDB three_parquet_files ∅ []
  = (Ret (TRelation (TConn ∅) "SELECT * FROM read_parquet('lake/')"),
     [EImportModule "duckdb"; EConnect ∅;
      EQuery (TConn ∅) "SELECT * FROM read_parquet('lake/')"]).
Proof. vm_compute. reflexivity. Qed.

(** X13. For a descriptor of any other class, [DuckDB.func] runs no query
    and raises; when duckdb imports and the connection opens, what it raises
    is the [KeyError] of the missing template, and the connection has been
    opened by then. *)
Theorem DuckDB_func_unknown_kind {Obj} (W : World Obj) (data : Data.t)
    (kwargs : gmap string value) (k : string) (t : list (event Obj)) :
  Data.kind data = OtherKind k →
  (∃ e new, DuckDB_func W data kwargs t = (Raise e, t ++ new)
     ∧ ∀ x, x ∈ new → is_query x = false)
  ∧ (∀ conn dd,
       connect_kwargs (Data.conn data) = Some conn →
       import_module W t "duckdb" = None →
       connect W (t ++ [EImportModule "duckdb"]) conn = inr dd →
       DuckDB_func W data kwargs t
       = (Raise KeyError, t ++ [EImportModule "duckdb"; EConnect conn])).
Proof.
  intros Hkind. unfold DuckDB_func. rewrite Hkind, queries_other_kind.
  unfold mbind, M_bind, do_import_module, do_connect, external, raise. simpl.
  split.
  - destruct (import_module W t "duckdb") as [e|]; simpl.
    { exists e, [EImportModule "duckdb"]. split; [done|].
      by intros x ->%list_elem_of_singleton. }
    destruct (connect_kwargs (Data.conn data)) as [conn|]; simpl.
    + destruct (connect W (t ++ [EImportModule "duckdb"]) conn) as [e|dd]; simpl.
      * exists e, [EImportModule "duckdb"; EConnect conn].
        rewrite <- app_assoc. split; [done|].
        intros x. rewrite !elem_of_cons, elem_of_nil. by intros [->|[->|[]]].
      * exists KeyError, [EImportModule "duckdb"; EConnect conn].
        rewrite <- app_assoc. split; [done|].
        intros x. rewrite !elem_of_cons, elem_of_nil. by intros [->|[->|[]]].
    + exists TypeError, [EImportModule "duckdb"]. split; [done|].
      by intros x ->%list_elem_of_singleton.
  - intros conn dd -> -> Hdd. simpl. rewrite Hdd. simpl. by rewrite <- app_assoc.
Qed.

Lemma DuckDB_func_unknown_kind_witness :
  (∃ e new, DuckDB_func echo_world unknown_kind_data ∅ [] = (Raise e, [] ++ new)
     ∧ ∀ x, x ∈ new → is_query x = false)
  ∧ (∀ conn dd,
       connect_kwargs (Data.conn unknown_kind_data) = Some conn →
       import_module echo_world [] "duckdb" = None →
       connect echo_world ([] ++ [EImportModule "duckdb"]) conn = inr dd →
       DuckDB_func echo_world unknown_kind_data ∅ []
       = (Raise KeyError, [] ++ [EImportModule "duckdb"; EConnect conn])).
Proof.
  apply (DuckDB_func_unknown_kind echo_world unknown_kind_data ∅ "Text" []).
  reflexivity.
Defined.

Lemma DuckDB_func_connects_with {Obj} (W : World Obj) data kwargs :
  emits (λ e : event Obj,
           is_duckdb_event e = true
           ∧ ∀ ckw, e = EConnect ckw → connect_kwargs (Data.conn data) = Some ckw)
    (DuckDB_func W data kwargs).
Proof.
  unfold DuckDB_func.
  apply emits_bind; [apply emits_external; by split|]. intros _.
  destruct (connect_kwargs (Data.conn data)) as [conn|]; [|apply emits_raise].
  apply emits_bind.
  { apply emits_external. split; [done|]. by intros ckw [= ->]. }
  intros dd. destruct (queries !! _); [|apply emits_raise].
  destruct (py_format _ _ _); [|apply emits_raise].
  apply emits_external. by split.
Qed.

(** After the import of duckdb, [DuckDB.func] opens one connection, with the
    keywords [conn] unpacks to, and no other. *)
Lemma DuckDB_func_connects_once {Obj} (W : World Obj) data kwargs ckw t :
  (Data.conn data = None ∧ ckw = ∅)
  ∨ (∃ s, Data.conn data = Some (VStr s) ∧ ckw = {["database" := VStr s]})
  ∨ (∃ d, Data.conn data = Some (VDict d) ∧ ckw = list_to_map d) →
  import_module W t "duckdb" = None →
  ∃ rest, (DuckDB_func W data kwargs t).2
          = t ++ [EImportModule "duckdb"; EConnect ckw] ++ rest
    ∧ ∀ ckw', EConnect ckw' ∉ rest.
Proof.
  intros Hconn Himport.
  assert (connect_kwargs (Data.conn data) = Some ckw) as Hckw.
  { destruct Hconn as [[-> ->]|[(s & -> & ->)|(d & -> & ->)]]; reflexivity. }
  unfold DuckDB_func. rewrite Hckw.
  unfold mbind, M_bind, do_import_module, do_connect, do_query, external, raise.
  rewrite Himport. simpl.
  destruct (connect W (t ++ [EImportModule "duckdb"]) ckw) as [e|dd]; simpl.
  { exists []. rewrite <- app_assoc. split; [done|]. intros ckw' Hin. inversion Hin. }
  destruct (queries !! Data.kind data) as [template|]; simpl.
  - destruct (py_format (format_field data) template None) as [sql|]; simpl.
    + exists [EQuery dd sql]. rewrite <- !app_assoc. split; [done|].
      intros ckw' Hin%list_elem_of_singleton. discriminate Hin.
    + exists []. rewrite <- app_assoc. split; [done|]. intros ckw' Hin. inversion Hin.
  - exists []. rewrite <- app_assoc. split; [done|]. intros ckw' Hin. inversion Hin.
Qed.

(** X14. Once duckdb is imported, [DuckDB.func] opens exactly one
    connection, straight after the import, from the descriptor's [conn]: with
    no argument when the descriptor has none, with [database] equal to it
    when it is a string, with its entries when it is a mapping.  For a [conn]
    of any other type the call raises [TypeError] after the import, and when
    the import of duckdb fails the call raises what the import raised; in
    both cases no connection is opened. *)
Theorem DuckDB_func_connection {Obj} (W : World Obj) (data : Data.t)
    (kwargs : gmap string value) (t : list (event Obj)) :
  (Data.conn data = None → import_module W t "duckdb" = None →
     ∃ rest, (DuckDB_func W data kwargs t).2
             = t ++ [EImportModule "duckdb"; EConnect ∅] ++ rest
       ∧ ∀ ckw, EConnect ckw ∉ rest)
  ∧ (∀ s, Data.conn data = Some (VStr s) → import_module W t "duckdb" = None →
       ∃ rest, (DuckDB_func W data kwargs t).2
               = t ++ [EImportModule "duckdb"; EConnect {["database" := VStr s]}] ++ rest
         ∧ ∀ ckw, EConnect ckw ∉ rest)
  ∧ (∀ d, Data.conn data = Some (VDict d) → import_module W t "duckdb" = None →
       ∃ rest, (DuckDB_func W data kwargs t).2
               = t ++ [EImportModule "duckdb"; EConnect (list_to_map d)] ++ rest
         ∧ ∀ ckw, EConnect ckw ∉ rest)
  ∧ (∀ v, Data.conn data = Some v → (∀ s, v ≠ VStr s) → (∀ d, v ≠ VDict d) →
       import_module W t "duckdb" = None →
       DuckDB_func W data kwargs t = (Raise TypeError, t ++ [EImportModule "duckdb"]))
  ∧ (∀ e, import_module W t "duckdb" = Some e →
       DuckDB_func W data kwargs t = (Raise e, t ++ [EImportModule "duckdb"])).
Proof.
  split; [|split; [|split; [|split]]].
  - intros Hnone Himport. apply DuckDB_func_connects_once; [by left | done].
  - intros s Hs Himport. apply DuckDB_func_connects_once; [|done].
    right. left. by exists s.
  - intros d Hd Himport. apply DuckDB_func_connects_once; [|done].
    right. right. by exists d.
  - intros v Hv Hstr Hdict Himport. unfold DuckDB_func. rewrite Hv.
    unfold mbind, M_bind, do_import_module, external, raise. rewrite Himport. simpl.
    destruct v as [|b|z|s|l|d]; try reflexivity.
    + destruct (Hstr s eq_refl).
    + destruct (Hdict d eq_refl).
  - intros e Himport. unfold DuckDB_func.
    unfold mbind, M_bind, do_import_module, external. by rewrite Himport.
Qed.

Lemma DuckDB_func_connection_witness :
  (∃ rest, (DuckDB_func echo_world query_on_file_db ∅ []).2
           = [] ++ [EImportModule "duckdb"; EConnect {["database" := VStr "my.db"]}] ++ rest
     ∧ ∀ ckw, EConnect ckw ∉ rest)
  ∧ (∃ rest, (DuckDB_func echo_world select_one ∅ []).2
             = [] ++ [EImportModule "duckdb"; EConnect ∅] ++ rest
       ∧ ∀ ckw, EConnect ckw ∉ rest)
  ∧ DuckDB_func echo_world query_with_number_conn ∅ []
    = (Raise TypeError, [] ++ [EImportModule "duckdb"])
  ∧ DuckDB_func no_duckdb select_one ∅ []
    = (Raise ModuleNotFoundError, [] ++ [EImportModule "duckdb"]).
Proof.
  split; [|split; [|split]].
  - apply (proj1 (proj2 (DuckDB_func_connection echo_world query_on_file_db ∅ [])) "my.db").
    + reflexivity.
    + reflexivity.
  - apply (proj1 (DuckDB_func_connection echo_world select_one ∅ [])).
    + reflexivity.
    + reflexivity.
  - apply (proj1 (proj2 (proj2 (proj2
             (DuckDB_func_connection echo_world query_with_number_conn ∅ []))))
             (VInt 3)).
    + reflexivity.
    + intros s. discriminate.
    + intros d. discriminate.
    + reflexivity.
  - apply (proj2 (proj2 (proj2 (proj2
             (DuckDB_func_connection no_duckdb select_one ∅ []))))
             ModuleNotFoundError).
    reflexivity.
Defined.

(** A [conn] that is a number: the import, then [TypeError]. *)
Example DuckDB_func_number_conn :
  DuckDB_func echo_world query_with_number_conn ∅ []
  = (Raise TypeError, [EImportModule "duckdb"]).
Proof. vm_compute. reflexivity. Qed.

(** The run of a query on a database file, in full. *)
Example DuckDB_func_on_file_db :
  DuckDB_func echo_world query_on_file_db ∅ []
  = (Ret (TRelation (TConn {["database" := VStr "my.db"]}) "SELECT 1"),
     [EImportModule "duckdb"; EConnect {["database" := VStr "my.db"]};
      EQuery (TConn {["database" := VStr "my.db"]}) "SELECT 1"]).
Proof. vm_compute. reflexivity. Qed.

(** ** The readers built on [DuckDB] *)

(** The events of [PandasDuck.read] are events of duckdb. *)
Lemma PandasDuck_read_emits {Obj} (W : World Obj)
    (call_method : list (event Obj) → Obj → string → list value → exn + Obj)
    fuel data kwargs :
  emits (λ e : event Obj, is_duckdb_event e = true)
    (PandasDuck_read W call_method fuel data kwargs).
Proof.
  unfold PandasDuck_read. apply emits_bind.
  - destruct fuel as [|n]; [apply emits_out_of_fuel|].
    rewrite DuckDB_read_is_func. apply emits_bound_call.
    eapply emits_weaken; [|apply DuckDB_func_connects_with]. by intros e [He _].
  - intros o t'. exists []. split; [by rewrite app_nil_r | constructor].
Qed.

(** X15. [PandasDuck.read] and [PandasDuck.glimpse] do not use their
    keywords, nor the [func], url keyword and concat function that
    [PandasDuck] inherits: [read] is the call of [DuckDB.func] on the
    descriptor's stored keywords (which it does not use, and which is refused
    with [TypeError] when they hold a key named [self]) followed by [df],
    [glimpse] is that call followed by [limit(10)] and then [df], and the only
    events of either are those of [DuckDB.func] (the import of duckdb, the
    connection, the query); no name is resolved, no load or concat function
    is called, however many files the descriptor lists. *)
Theorem PandasDuck_runs_DuckDB_only {Obj} (W : World Obj)
    (call_method : list (event Obj) → Obj → string → list value → exn + Obj)
    (n : nat) (data : Data.t) (kwargs : gmap string value) (t : list (event Obj)) :
  PandasDuck_read W call_method (S n) data kwargs t
  = (relation ← invoke_func W DuckDB data (Data.kwargs data);
     do_method call_method relation "df" []) t
  ∧ PandasDuck_glimpse W call_method (S n) data kwargs t
    = (relation ← invoke_func W DuckDB data (Data.kwargs data);
       few ← do_method call_method relation "limit" [VInt 10];
       do_method call_method few "df" []) t
  ∧ (Data.kwargs data !! "self" = None →
       invoke_func W DuckDB data (Data.kwargs data)
       = DuckDB_func W data (Data.kwargs data))
  ∧ (is_Some (Data.kwargs data !! "self") →
       PandasDuck_read W call_method (S n) data kwargs t = (Raise TypeError, t)
       ∧ PandasDuck_glimpse W call_method (S n) data kwargs t = (Raise TypeError, t))
  ∧ (∃ new, (PandasDuck_read W call_method (S n) data kwargs t).2 = t ++ new
       ∧ ∀ e, e ∈ new → is_duckdb_event e = true)
  ∧ (∃ new, (PandasDuck_glimpse W call_method (S n) data kwargs t).2 = t ++ new
       ∧ ∀ e, e ∈ new → is_duckdb_event e = true).
Proof.
  assert (Hread : BaseReader_read W (S n) DuckDB data ∅
                  = invoke_func W DuckDB data (Data.kwargs data)).
  { rewrite DuckDB_read_is_func. unfold merged_kwargs. by rewrite (left_id_L ∅ (∪)). }
  assert (Hmeth : ∀ o name args,
            emits (λ e : event Obj, is_duckdb_event e = true)
              (do_method call_method o name args)).
  { intros o name args t'. exists []. split; [by rewrite app_nil_r | constructor]. }
  assert (Hfunc : emits (λ e : event Obj, is_duckdb_event e = true)
                    (invoke_func W DuckDB data (Data.kwargs data))).
  { apply emits_bound_call.
    eapply emits_weaken; [|apply DuckDB_func_connects_with]. by intros e [He _]. }
  assert (Hr : PandasDuck_read W call_method (S n) data kwargs
               = (relation ← invoke_func W DuckDB data (Data.kwargs data);
                  do_method call_method relation "df" [])).
  { unfold PandasDuck_read. by rewrite Hread. }
  assert (Hg : ∀ t', PandasDuck_glimpse W call_method (S n) data kwargs t'
               = (relation ← invoke_func W DuckDB data (Data.kwargs data);
                  few ← do_method call_method relation "limit" [VInt 10];
                  do_method call_method few "df" []) t').
  { intros t'. unfold PandasDuck_glimpse, DuckDB_glimpse. rewrite Hread.
    unfold mbind, M_bind.
    by destruct (invoke_func W DuckDB data (Data.kwargs data) t') as [[r| |] t'']. }
  split; [by rewrite Hr | split; [apply Hg | split; [|split; [|split]]]].
  - intros Hnone. by apply bound_call_no_self.
  - intros Hself. rewrite Hr, Hg.
    change (invoke_func W DuckDB data (Data.kwargs data))
      with (bound_call (Data.kwargs data) (DuckDB_func W data (Data.kwargs data))).
    by rewrite (bound_call_self _ _ Hself).
  - rewrite Hr.
    destruct (emits_bind _ (invoke_func W DuckDB data (Data.kwargs data))
                (λ relation, do_method call_method relation "df" []) Hfunc
                (λ r, Hmeth r "df" []) t) as (new & Heq & Hnew).
    exists new. split; [done | by apply Forall_forall].
  - rewrite Hg.
    destruct (emits_bind _ (invoke_func W DuckDB data (Data.kwargs data))
                (λ relation, few ← do_method call_method relation "limit" [VInt 10];
                             do_method call_method few "df" []) Hfunc) with (t := t)
      as (new & Heq & Hnew).
    { intros r. apply emits_bind; [apply Hmeth | intros few; apply Hmeth]. }
    exists new. split; [done | by apply Forall_forall].
Qed.

Lemma PandasDuck_runs_DuckDB_only_witness :
  PandasDuck_read echo_world echo_method 1 three_parquet_files
    {["columns" := VList [VStr "a"]]} []
  = (relation ← DuckDB_func echo_world three_parquet_files (Data.kwargs three_parquet_files);
     do_method echo_method relation "df" []) []
  ∧ PandasDuck_glimpse echo_world echo_method 1 three_parquet_files
      {["columns" := VList [VStr "a"]]} []
    = (relation ← DuckDB_func echo_world three_parquet_files (Data.kwargs three_parquet_files);
       few ← do_method echo_method relation "limit" [VInt 10];
       do_method echo_method few "df" []) []
  ∧ (PandasDuck_read echo_world echo_method 1 query_with_self_keyword ∅ []
     = (Raise TypeError, [])
     ∧ PandasDuck_glimpse echo_world echo_method 1 query_with_self_keyword ∅ []
       = (Raise TypeError, []))
  ∧ (∃ new, (PandasDuck_read echo_world echo_method 1 three_parquet_files
               {["columns" := VList [VStr "a"]]} []).2 = [] ++ new
       ∧ ∀ e, e ∈ new → is_duckdb_event e = true)
  ∧ (∃ new, (PandasDuck_glimpse echo_world echo_method 1 three_parquet_files
               {["columns" := VList [VStr "a"]]} []).2 = [] ++ new
       ∧ ∀ e, e ∈ new → is_duckdb_event e = true).
Proof.
  pose proof (PandasDuck_runs_DuckDB_only echo_world echo_method 0 three_parquet_files
                {["columns" := VList [VStr "a"]]} []) as (Hr & Hg & Hfunc & _ & Hre & Hge).
  pose proof (PandasDuck_runs_DuckDB_only echo_world echo_method 0 query_with_self_keyword
                ∅ []) as (_ & _ & _ & Hself & _).
  rewrite (Hfunc eq_refl) in Hr, Hg.
  split; [exact Hr | split; [exact Hg | split; [|split; [exact Hre | exact Hge]]]].
  apply Hself. by eexists.
Defined.

(** ** How often the load function is called *)

Section call_counts.
Context {Obj : Type} (W : World Obj).

Lemma count_calls_app (l1 l2 : list (event Obj)) :
  count_calls (l1 ++ l2) = count_calls l1 + count_calls l2.
Proof. unfold count_calls. by rewrite filter_app, length_app. Qed.

Lemma bounded_ret {A} (a : A) : bounded_calls 0 (mret a : M Obj A).
Proof. intros t. exists []. by rewrite app_nil_r. Qed.

Lemma bounded_raise {A} e : bounded_calls 0 (raise e : M Obj A).
Proof. intros t. exists []. by rewrite app_nil_r. Qed.

Lemma bounded_out_of_fuel {A} : bounded_calls 0 (out_of_fuel : M Obj A).
Proof. intros t. exists []. by rewrite app_nil_r. Qed.

Lemma bounded_external {A} e (answer : list (event Obj) → exn + A) :
  bounded_calls (if is_call e then 1 else 0) (external e answer).
Proof. intros t. exists [e]. split; [done|]. by destruct e. Qed.

Lemma bounded_bind {A B} a b (m : M Obj A) (k : A → M Obj B) :
  bounded_calls a m → (∀ x, bounded_calls b (k x)) → bounded_calls (a + b) (m ≫= k).
Proof.
  intros Hm Hk t. unfold mbind, M_bind.
  destruct (Hm t) as (new & Heq & Hnew).
  destruct (m t) as [[x| |] t']; simpl in Heq; subst t'.
  - destruct (Hk x (t ++ new)) as (new' & Heq' & Hnew').
    exists (new ++ new'). rewrite Heq', app_assoc, count_calls_app. split; [done | lia].
  - exists new. split; [done | lia].
  - exists new. split; [done | lia].
Qed.

Lemma bounded_weaken {A} a b (m : M Obj A) :
  (a ≤ b)%nat → bounded_calls a m → bounded_calls b m.
Proof.
  intros Hab Hm t. destruct (Hm t) as (new & Heq & Hnew). exists new. split; [done | lia].
Qed.

Lemma bounded_bound_call {A} b (kw : gmap string value) (m : M Obj A) :
  bounded_calls b m → bounded_calls b (bound_call kw m).
Proof.
  intros Hm. unfold bound_call. case_bool_decide; [|done].
  apply bounded_weaken with 0; [lia | apply bounded_raise].
Qed.

Lemma DuckDB_func_bounded data kwargs : bounded_calls 0 (DuckDB_func W data kwargs).
Proof.
  unfold DuckDB_func.
  apply (bounded_bind 0 0); [apply (bounded_external (EImportModule _))|]. intros _.
  destruct (connect_kwargs _); [|apply bounded_raise].
  apply (bounded_bind 0 0); [apply (bounded_external (EConnect _))|]. intros dd.
  destruct (queries !! _); [|apply bounded_raise].
  destruct (py_format _ _ _); [|apply bounded_raise].
  apply (bounded_external (EQuery _ _)).
Qed.

Lemma invoke_func_bounded cls data kw : bounded_calls 1 (invoke_func W cls data kw).
Proof.
  unfold invoke_func. destruct (Reader.func cls) as [name|].
  - apply (bounded_bind 0 1); [apply (bounded_external (EImportName _))|]. intros _.
    apply (bounded_external (ECall _ _)).
  - apply bounded_weaken with 0; [lia | apply bounded_bound_call, DuckDB_func_bounded].
Qed.

Lemma read_parts_bounded (sub_read : gmap string value → M Obj Obj) u files kw parts :
  (∀ afile kw', bounded_calls 1 (sub_read (<[u := VStr afile]> kw'))) →
  bounded_calls (length files) (read_parts sub_read u files kw parts).
Proof.
  intros Hsub. revert kw parts.
  induction files as [|afile rest IH]; intros kw parts; simpl.
  - apply bounded_ret.
  - apply (bounded_bind 1 (length rest)); [apply Hsub|]. intros part. apply IH.
Qed.

Lemma read_sub_load_bounded fuel cls data kw u v :
  Reader.url_arg cls = Some u →
  bounded_calls 1 (BaseReader_read W fuel cls data (<[u := v]> kw)).
Proof.
  intros Hu. destruct fuel as [|n].
  - apply bounded_weaken with 0; [lia | apply bounded_out_of_fuel].
  - rewrite read_sub_load by done. apply invoke_func_bounded.
Qed.
End call_counts.

(** X16. In every run, [read] calls load functions at most once per file of
    the list when it fans out, and at most once otherwise: never more than
    the greater of 1 and the number of files. *)
Theorem read_calls_at_most_once_per_file {Obj} (W : World Obj) (fuel : nat)
    (cls : Reader.t) (data : Data.t) (kwargs : gmap string value)
    (t : list (event Obj)) :
  ∃ new, (BaseReader_read W fuel cls data kwargs t).2 = t ++ new
    ∧ (count_calls new ≤ 1 `max` length (Data.filelist data))%nat.
Proof.
  revert t. change (bounded_calls (1 `max` length (Data.filelist data))
                      (BaseReader_read W fuel cls data kwargs)).
  destruct fuel as [|n].
  { apply bounded_weaken with 0; [lia | apply bounded_out_of_fuel]. }
  read_paths cls data kwargs Hf Hlen.
  - rewrite (read_fan_out _ _ _ _ _ _ _ Hf Hlen).
    apply fan_out_names_Some in Hf as (Hu & _).
    apply bounded_weaken with (0 + (length (Data.filelist data) + 0)); [lia|].
    apply bounded_bind; [apply (bounded_external (EImportName _))|]. intros _.
    apply bounded_bind; [|intros parts; apply (bounded_external (EConcat _ _))].
    apply read_parts_bounded. intros afile kw'.
    by apply bounded_bound_call, read_sub_load_bounded.
  - rewrite read_single by auto.
    apply bounded_weaken with 1; [lia | apply invoke_func_bounded].
  - rewrite read_single by auto.
    apply bounded_weaken with 1; [lia | apply invoke_func_bounded].
Qed.

Lemma read_calls_at_most_once_per_file_witness :
  ∃ new, (BaseReader_read echo_world 2 PandasCSV two_csv_files ∅ []).2 = [] ++ new
    ∧ (count_calls new ≤ 1 `max` length (Data.filelist two_csv_files))%nat.
Proof.
  exact (read_calls_at_most_once_per_file echo_world 2 PandasCSV two_csv_files ∅ []).
Defined.

(** ** The keywords every call of the load function carries *)

Section read_keywords.
Context {Obj : Type} (W : World Obj).
Implicit Types (cls : Reader.t) (data : Data.t) (kw kwargs : gmap string value).






End read_keywords.




(** ** One file, for every class with a concat function *)

Lemma PandasDuck_read_is_func {Obj} (W : World Obj)
    (call_method : list (event Obj) → Obj → string → list value → exn + Obj)
    n data kwargs :
  PandasDuck_read W call_method (S n) data kwargs
  = (relation ← invoke_func W DuckDB data (Data.kwargs data);
     do_method call_method relation "df" []).
Proof.
  unfold PandasDuck_read. rewrite DuckDB_read_is_func.
  unfold merged_kwargs. by rewrite (left_id_L ∅ (∪)).
Qed.

(** C5, as the code has it.  For a class with a concat function and a
    descriptor with one file in its list, no concat function is resolved or
    called.  For the classes that use [BaseReader.read], [read] is a single
    call of the load function: the keywords are the merged ones, with the
    storage options when the flag is set, and with the descriptor's [url]
    (not the entry of the file list) under the url keyword when the class has
    one.  [PandasDuck], which has its own [read], calls no load function: it
    runs [DuckDB.func] and then [df]. *)
Theorem read_one_file_is_one_call {Obj} (W : World Obj)
    (call_method : list (event Obj) → Obj → string → list value → exn + Obj)
    (n : nat) (cls : Reader.t) (data : Data.t) (overrides : gmap string value)
    (c f : string) (t : list (event Obj)) :
  Reader.concat_func cls = Some c →
  Data.filelist data = [f] →
  (overrides_read cls = false →
     Reader_read W call_method (S n) cls data overrides t
     = invoke_func W cls data (single_call_kwargs cls data overrides) t
     ∧ (∀ u, Reader.url_arg cls = Some u → u ≠ "" →
          single_call_kwargs cls data overrides !! u = Some (VStr (Data.url data))))
  ∧ (overrides_read cls = true →
       Reader_read W call_method (S n) cls data overrides t
       = (relation ← invoke_func W DuckDB data (Data.kwargs data);
          do_method call_method relation "df" []) t)
  ∧ (∃ new, (Reader_read W call_method (S n) cls data overrides t).2 = t ++ new
       ∧ ∀ e, e ∈ new → is_concat e = false).
Proof.
  intros Hconcat Hfiles.
  assert (Hsingle : BaseReader_read W (S n) cls data overrides
                    = invoke_func W cls data (single_call_kwargs cls data overrides)).
  { apply read_single. right. rewrite Hfiles. simpl. lia. }
  unfold Reader_read. split; [|split].
  - intros ->. split; [by rewrite Hsingle|].
    intros u Hu Hne. by apply single_call_kwargs_url.
  - intros ->. by rewrite PandasDuck_read_is_func.
  - destruct (overrides_read cls).
    + destruct (PandasDuck_read_emits W call_method (S n) data overrides t)
        as (new & Heq & Hnew).
      exists new. split; [exact Heq|]. rewrite Forall_forall in Hnew.
      intros e Hin. specialize (Hnew e Hin). by destruct e.
    + rewrite Hsingle.
      destruct (invoke_func_emits W (λ e, is_concat e = false) cls data
                  (single_call_kwargs cls data overrides)) with (t := t)
        as (new & Heq & Hnew); [by intros e He _|].
      exists new. split; [exact Heq|]. by apply Forall_forall.
Qed.

Lemma read_one_file_is_one_call_witness :
  (Reader_read echo_world echo_method 1 PandasCSV one_csv_file ∅ []
   = invoke_func echo_world PandasCSV one_csv_file
       (single_call_kwargs PandasCSV one_csv_file ∅) []
   ∧ single_call_kwargs PandasCSV one_csv_file ∅ !! "filepath_or_buffer"
     = Some (VStr "data/*.csv"))
  ∧ (∃ new, (Reader_read echo_world echo_method 1 PandasCSV one_csv_file ∅ []).2
            = [] ++ new
       ∧ ∀ e, e ∈ new → is_concat e = false)
  ∧ Reader_read echo_world echo_method 1 PandasDuck remote_file ∅ []
    = (relation ← invoke_func echo_world DuckDB remote_file (Data.kwargs remote_file);
       do_method echo_method relation "df" []) []
  ∧ (∃ new, (Reader_read echo_world echo_method 1 PandasDuck remote_file ∅ []).2
            = [] ++ new
       ∧ ∀ e, e ∈ new → is_concat e = false).
Proof.
  destruct (read_one_file_is_one_call echo_world echo_method 0 PandasCSV one_csv_file ∅
              "pandas:concat" "data/a.csv" [] eq_refl eq_refl)
    as (Hbase & _ & Hquiet).
  destruct (read_one_file_is_one_call echo_world echo_method 0 PandasDuck remote_file ∅
              "pandas:concat" "bucket/a.parquet" [] eq_refl eq_refl)
    as (_ & Hduck & Hquiet').
  destruct (Hbase eq_refl) as [Hrun Hurl].
  split; [split; [exact Hrun | apply Hurl; [reflexivity | discriminate]]|].
  split; [exact Hquiet|]. split; [exact (Hduck eq_refl) | exact Hquiet'].
Defined.

(** [PandasDuck] on one file, in full: duckdb's query on the url and [df];
    the load function and the concat function that [PandasDuck] inherits are
    not called. *)
Example PandasDuck_read_one_file :
  Reader_read echo_world echo_method 1 PandasDuck remote_file ∅ []
  = (Ret (TRelation (TConn ∅) "SELECT * FROM read_parquet('s3://bucket/a.parquet')"),
     [EImportModule "duckdb"; EConnect ∅;
      EQuery (TConn ∅) "SELECT * FROM read_parquet('s3://bucket/a.parquet')"]).
Proof. vm_compute. reflexivity. Qed.
